(** * The MCP sample agent of skills-kit: model and verified properties

    Source: [examples/mcp-agent/agent.py].

    The development has three parts.  Part I embeds the program: Python
    values, exceptions and the pieces of the standard library the agent
    calls ([base64], [bytes.decode], [str.strip], ...), then the agent's
    own functions under their source names.  Part II states and proves the
    properties, for every behaviour of the collaborators that are not
    modelled in detail ([json], [mimetypes], [pathlib], the MCP sessions,
    the reasoning agent).  Part III runs the properties on concrete
    attachments, servers and console inputs.

    Conventions of the embedding:
    - a Python [str] is represented by its UTF-8 encoding, as a [string];
      a Python [bytes] object is a [list Byte.byte];
    - a computation that may raise is a value of [outcome]; only exceptions
      deriving from [Exception] are represented (interrupts and task
      cancellation are asynchronous signals, not results of the calls);
    - code that mutates shared objects (the client's session registry, the
      set of used filenames, the console) is a state transformer over
      [Heap]. *)

From Stdlib Require Import ZArith NArith Bool List Lia.
From Stdlib Require Ascii String DecimalString.
From Stdlib.Strings Require Byte.
From stdpp Require Import gmap strings list.
Import ListNotations.

Set Warnings "-register-all".
Local Open Scope N_scope.

(* ===================================================================== *)
(** * Part I.  The embedding                                              *)
(* ===================================================================== *)

(** ** Exceptions and fallible computations *)

(** [OSError] stands for the operating-system errors that are not a
    [FileNotFoundError] ([IsADirectoryError], [PermissionError], ...);
    [RuntimeError] for what the collaborators raise. *)
Inductive exn : Type :=
| FileNotFoundError (msg : string)
| OSError (msg : string)
| ValueError (msg : string)
| BinasciiError
| UnicodeDecodeError
| JSONDecodeError
| TypeError
| IndexError
| EOFError
| RuntimeError (msg : string).

Inductive outcome (A : Type) : Type :=
| Return (a : A)
| Raise (e : exn).
Arguments Return {A} a.
Arguments Raise {A} e.

#[global] Instance outcome_ret : MRet outcome := fun A a => Return a.

#[global] Instance outcome_bind : MBind outcome := fun A B k m =>
  match m with
  | Return a => k a
  | Raise e => Raise e
  end.

(** [try: m  except Exception: h] *)
Definition try_except {A} (m : outcome A) (h : exn -> outcome A) : outcome A :=
  match m with
  | Return a => Return a
  | Raise e => h e
  end.

Definition returns {A} (m : outcome A) : Prop := exists a, m = Return a.

(** ** Python values (what [json.loads] can produce) *)

Inductive value : Type :=
| PyNone
| PyBool (b : bool)
| PyInt (z : Z)
| PyFloat (bits : Z)                      (* IEEE-754 binary64 bit pattern *)
| PyStr (s : string)
| PyList (items : list value)
| PyDict (entries : list (string * value)). (* insertion-ordered, keys unique *)

Definition isinstance_dict (v : value) : bool :=
  match v with PyDict _ => true | _ => false end.

Definition isinstance_list (v : value) : bool :=
  match v with PyList _ => true | _ => false end.

(** [d.get(k)] on an insertion-ordered dict; [None] of Python is [None]. *)
Fixpoint dict_get (d : list (string * value)) (k : string) : option value :=
  match d with
  | [] => None
  | (k', v) :: d' => if String.eqb k' k then Some v else dict_get d' k
  end.

(** [x == "lit"] for an optional Python value [x] and a string literal. *)
Definition eq_str (x : option value) (lit : string) : bool :=
  match x with
  | Some (PyStr s) => String.eqb s lit
  | _ => false
  end.

(** ** Strings *)

Definition bytes : Type := list Byte.byte.

Definition startswith (s p : string) : bool := String.prefix p s.

Definition endswith (s p : string) : bool :=
  String.prefix (String.rev p) (String.rev s).

(** ["sep".join(parts)] *)
Fixpoint join (sep : string) (parts : list string) : string :=
  match parts with
  | [] => EmptyString
  | [p] => p
  | p :: rest => p +:+ sep +:+ join sep rest
  end.

(** [str(n)] for an [int] *)
Definition str_of_int (z : Z) : string :=
  DecimalString.NilZero.string_of_int (Z.to_int z).

Definition code (c : Ascii.ascii) : N := Ascii.N_of_ascii c.

(** [str.strip()] removes the characters for which [str.isspace] holds:
    U+0009-000D, U+001C-0020, U+0085, U+00A0, U+1680, U+2000-200A,
    U+2028, U+2029, U+202F, U+205F, U+3000.  On the UTF-8 representation
    a space is one, two or three bytes long; [lstrip_codes] drops the
    leading spaces, [rstrip_codes_rev] does the same on the reversed byte
    sequence. *)
Definition ascii_space (n : N) : bool :=
  ((9 <=? n) && (n <=? 13)) || ((28 <=? n) && (n <=? 32)).

Definition space3 (a b c : N) : bool :=
  ((a =? 0xE1) && (b =? 0x9A) && (c =? 0x80))
  || ((a =? 0xE2) && (b =? 0x80)
      && (((0x80 <=? c) && (c <=? 0x8A)) || (c =? 0xA8) || (c =? 0xA9) || (c =? 0xAF)))
  || ((a =? 0xE2) && (b =? 0x81) && (c =? 0x9F))
  || ((a =? 0xE3) && (b =? 0x80) && (c =? 0x80)).

Definition space2 (a b : N) : bool :=
  (a =? 0xC2) && ((b =? 0x85) || (b =? 0xA0)).

Fixpoint lstrip_codes (l : list N) : list N :=
  match l with
  | a :: t =>
    if ascii_space a then lstrip_codes t
    else match t with
         | b :: t' =>
           if space2 a b then lstrip_codes t'
           else match t' with
                | c :: t'' => if space3 a b c then lstrip_codes t'' else l
                | [] => l
                end
         | [] => l
         end
  | [] => []
  end.

Fixpoint rstrip_codes_rev (l : list N) : list N :=
  match l with
  | c :: t =>
    if ascii_space c then rstrip_codes_rev t
    else match t with
         | b :: t' =>
           if space2 b c then rstrip_codes_rev t'
           else match t' with
                | a :: t'' => if space3 a b c then rstrip_codes_rev t'' else l
                | [] => l
                end
         | [] => l
         end
  | [] => []
  end.

Definition codes_of (s : string) : list N :=
  map code (String.list_ascii_of_string s).

Definition str_of_codes (l : list N) : string :=
  String.string_of_list_ascii (map Ascii.ascii_of_N l).

Definition strip (s : string) : string :=
  str_of_codes (rev (rstrip_codes_rev (rev (lstrip_codes (codes_of s))))).

(** Truthiness of a [str]: non-empty. *)
Definition truthy_str (s : string) : bool :=
  match s with EmptyString => false | _ => true end.

(** ** [bytes.decode("utf-8")]

    The strict decoder accepts exactly the well-formed byte sequences of
    the Unicode standard (no overlong forms, no surrogates, nothing above
    U+10FFFF).  Since a [str] is represented by its UTF-8 encoding, a
    successful decode returns the same bytes as a [string]. *)
Module Utf8.

Definition between (lo hi n : N) : bool := (lo <=? n) && (n <=? hi).
Definition cont (n : N) : bool := between 0x80 0xBF n.

Fixpoint well_formed (bs : list N) : bool :=
  match bs with
  | [] => true
  | b0 :: t0 =>
    if b0 <=? 0x7F then well_formed t0
    else match t0 with
    | [] => false
    | b1 :: t1 =>
      if between 0xC2 0xDF b0 then cont b1 && well_formed t1
      else match t1 with
      | [] => false
      | b2 :: t2 =>
        if b0 =? 0xE0 then between 0xA0 0xBF b1 && cont b2 && well_formed t2
        else if between 0xE1 0xEC b0 then cont b1 && cont b2 && well_formed t2
        else if b0 =? 0xED then between 0x80 0x9F b1 && cont b2 && well_formed t2
        else if between 0xEE 0xEF b0 then cont b1 && cont b2 && well_formed t2
        else match t2 with
        | [] => false
        | b3 :: t3 =>
          if b0 =? 0xF0
          then between 0x90 0xBF b1 && cont b2 && cont b3 && well_formed t3
          else if between 0xF1 0xF3 b0
          then cont b1 && cont b2 && cont b3 && well_formed t3
          else if b0 =? 0xF4
          then between 0x80 0x8F b1 && cont b2 && cont b3 && well_formed t3
          else false
        end
      end
    end
  end.

Definition decode (bs : bytes) : outcome string :=
  if well_formed (map Byte.to_N bs)
  then Return (String.string_of_list_byte bs)
  else Raise UnicodeDecodeError.

End Utf8.

(** ** [base64.b64encode] and [base64.b64decode]

    Encoding follows RFC 4648.  Decoding follows CPython's
    [binascii.a2b_base64] in its default, lenient mode: characters outside
    the alphabet are skipped, a pad that completes a quad ends the input,
    and input that stops inside a quad is an error.  A [str] argument must
    be ASCII. *)
Module Base64.

Definition alphabet : bytes :=
  String.list_byte_of_string
    "ABCDEFGHIJKLMNOPQRSTUVWXYZabcdefghijklmnopqrstuvwxyz0123456789+/".

Definition pad : Byte.byte := Byte.x3d.

(** [table_b2a_base64[n]] *)
Definition b2a (n : N) : Byte.byte := nth (N.to_nat n) alphabet Byte.x00.

(** [table_a2b_base64[c]]; [None] stands for the entries that are not a
    sextet. *)
Fixpoint index_of (c : Byte.byte) (l : bytes) (i : N) : option N :=
  match l with
  | [] => None
  | x :: l' => if Byte.eqb x c then Some i else index_of c l' (i + 1)
  end.

Definition a2b (c : Byte.byte) : option N := index_of c alphabet 0.

Fixpoint b2a_base64 (data : bytes) : bytes :=
  match data with
  | [] => []
  | [x] =>
    let n1 := Byte.to_N x in
    [b2a (N.shiftr n1 2); b2a (N.shiftl (N.land n1 3) 4); pad; pad]
  | [x; y] =>
    let n1 := Byte.to_N x in
    let n2 := Byte.to_N y in
    [b2a (N.shiftr n1 2);
     b2a (N.lor (N.shiftl (N.land n1 3) 4) (N.shiftr n2 4));
     b2a (N.shiftl (N.land n2 15) 2); pad]
  | x :: y :: z :: rest =>
    let n1 := Byte.to_N x in
    let n2 := Byte.to_N y in
    let n3 := Byte.to_N z in
    b2a (N.shiftr n1 2)
    :: b2a (N.lor (N.shiftl (N.land n1 3) 4) (N.shiftr n2 4))
    :: b2a (N.lor (N.shiftl (N.land n2 15) 2) (N.shiftr n3 6))
    :: b2a (N.land n3 63)
    :: b2a_base64 rest
  end.

(** Store of an [int] into an [unsigned char]. *)
Definition to_uchar (n : N) : Byte.byte :=
  match Byte.of_N (n mod 256) with
  | Some b => b
  | None => Byte.x00
  end.

(** The decoding loop; [out] is the output written so far, most recent
    byte first. *)
Fixpoint a2b_loop (input : bytes) (quad_pos leftchar pads : N) (out : bytes)
  : outcome bytes :=
  match input with
  | [] => if quad_pos =? 0 then Return (rev out) else Raise BinasciiError
  | this_ch :: rest =>
    if Byte.eqb this_ch pad then
      if (2 <=? quad_pos) && (4 <=? quad_pos + (pads + 1))
      then Return (rev out)
      else a2b_loop rest quad_pos leftchar
                    (if 2 <=? quad_pos then pads + 1 else pads) out
    else
      match a2b this_ch with
      | None => a2b_loop rest quad_pos leftchar pads out
      | Some v =>
        match quad_pos with
        | 0 => a2b_loop rest 1 v 0 out
        | 1 => a2b_loop rest 2 (N.land v 15) 0
                 (to_uchar (N.lor (N.shiftl leftchar 2) (N.shiftr v 4)) :: out)
        | 2 => a2b_loop rest 3 (N.land v 3) 0
                 (to_uchar (N.lor (N.shiftl leftchar 4) (N.shiftr v 2)) :: out)
        | _ => a2b_loop rest 0 0 0
                 (to_uchar (N.lor (N.shiftl leftchar 6) v) :: out)
        end
      end
  end.

Definition a2b_base64 (input : bytes) : outcome bytes :=
  a2b_loop input 0 0 0 [].

Definition is_ascii (s : string) : bool :=
  forallb (fun c => code c <? 128) (String.list_ascii_of_string s).

Definition b64encode (data : bytes) : bytes := b2a_base64 data.

Definition b64decode (s : string) : outcome bytes :=
  if is_ascii s
  then a2b_base64 (String.list_byte_of_string s)
  else Raise (ValueError "string argument should contain only ASCII characters").

End Base64.

(** ** The agent's data *)

Definition nl : string := String (Ascii.ascii_of_N 10) EmptyString.

(** A [file_info] dict.  The only dicts of attachments in the program are
    those [load_file] builds, with these five keys, so that the lookups
    [file_info.get("filename", ...)], [file_info.get("mime_type")] and
    [file_info["data"]] always find their key. *)
Record FileInfo : Type := {
  filename : string;
  mime_type : string;
  data : string;          (* base64 text of the content *)
  size : Z;
  path : string
}.

(** A content item of a tool result; [text] is [getattr(item, "text", None)]. *)
Record ContentItem : Type := { text : option string }.

(** An MCP [CallToolResult], through the two attributes the agent probes:
    [getattr(result, "structuredContent", None)] and
    [getattr(result, "content", [])]. *)
Record CallToolResult : Type := {
  structuredContent : option value;
  content : option (list ContentItem)
}.

(** A tool descriptor; [inputSchema] is [None] when the attribute is absent
    or [None]. *)
Record Tool : Type := {
  name : string;
  inputSchema : option (list (string * value))
}.

(** An established session, with what its two requests answer. *)
Record Session : Type := {
  list_tools : outcome (list Tool);
  call_tool : string -> value -> outcome CallToolResult
}.

(** The MCP client: the registry of active sessions, by server name, and
    what establishing a session to every configured server yields. *)
Record MCPClient : Type := {
  sessions : list (string * Session);
  configured : outcome (list (string * Session))
}.

(** A file system snapshot, by what a path leads to: a directory; a file
    that [open] and [read] succeed on (ordinarily a regular file), with
    the content read; or an existing file that [open] or [read] fails on
    with an operating-system error (no permission to read, an input/output
    error, ...), with the text of the [OSError] raised.  A path that is not
    in the snapshot does not exist. *)
Inductive fs_node : Type :=
| Directory
| RegularFile (file_content : bytes)
| Unreadable (error : string).

(** The library functions and collaborators the agent relies on and that
    are not modelled in detail. *)
Class Runtime : Type := {
  guess_type : string -> option string;          (* mimetypes.guess_type(p)[0] *)
  path_name : string -> string;                  (* Path(p).name *)
  path_absolute : string -> string;              (* str(Path(p).absolute()) *)
  path_repr : string -> string;                  (* repr(str(Path(p))) *)
  json_loads : string -> outcome value;          (* json.loads(raw) *)
  json_dumps : value -> outcome string;          (* json.dumps(v, indent=2) *)
  str_value : value -> string;                   (* str(v) *)
  str_result : CallToolResult -> string;         (* str(result) *)
  agent_run : string -> MCPClient -> outcome string * MCPClient
                                                 (* MCPAgent.run(prompt) *)
}.

(** ** The agent's pure functions *)

Section Functions.
Context `{Runtime}.

Definition path_exists (fs : gmap string fs_node) (p : string) : bool :=
  bool_decide (is_Some (fs !! p)).

(** [with open(path, "rb") as f: content = f.read()], where [path] is
    [Path(p)]: the errors name the path as [repr(str(path))]. *)
Definition open_read (fs : gmap string fs_node) (p : string) : outcome bytes :=
  match fs !! p with
  | Some (RegularFile c) => Return c
  | Some Directory =>
    Raise (OSError ("[Errno 21] Is a directory: " +:+ path_repr p))
  | Some (Unreadable error) => Raise (OSError error)
  | None =>
    Raise (FileNotFoundError
             ("[Errno 2] No such file or directory: " +:+ path_repr p))
  end.

Definition load_file (fs : gmap string fs_node) (file_path : string)
  : outcome FileInfo :=
  if negb (path_exists fs file_path)
  then Raise (FileNotFoundError ("File not found: " +:+ file_path))
  else
    let mime_type :=
      match guess_type file_path with
      | None => "application/octet-stream"
      | Some m => m
      end in
    content ← open_read fs file_path;
    data ← Utf8.decode (Base64.b64encode content);
    mret {| filename := path_name file_path;
            mime_type := mime_type;
            data := data;
            size := Z.of_nat (length content);
            path := path_absolute file_path |}.

(** [base64.b64decode(file_info["data"]).decode("utf-8")] *)
Definition decoded_text (file_info : FileInfo) : outcome string :=
  raw ← Base64.b64decode (data file_info);
  Utf8.decode raw.

Definition file_block (file_info : FileInfo) (content : string) : string :=
  nl +:+ "--- File: " +:+ filename file_info +:+ " ---" +:+ nl
     +:+ content +:+ nl
     +:+ "--- End of " +:+ filename file_info +:+ " ---" +:+ nl.

Definition file_placeholder (file_info : FileInfo) : string :=
  nl +:+ "[Attached file: " +:+ filename file_info
     +:+ " (" +:+ mime_type file_info +:+ ", "
     +:+ str_of_int (size file_info) +:+ " bytes)]" +:+ nl.

Definition format_file_for_prompt (file_info : FileInfo) : outcome string :=
  inlined ←
    (if startswith (mime_type file_info) "text/"
        || String.eqb (mime_type file_info) "application/json"
     then try_except
            (content ← decoded_text file_info;
             mret (Some (file_block file_info content)))
            (fun _ => mret None)
     else mret None);
  match inlined with
  | Some block => mret block
  | None => mret (file_placeholder file_info)
  end.

Definition build_prompt_with_files (prompt : string) (files : list FileInfo)
  : outcome string :=
  match files with
  | [] => mret prompt
  | _ =>
    blocks ← mapM format_file_for_prompt files;
    mret (join nl blocks +:+ nl +:+ prompt)
  end.

(** [used_filenames and filename in used_filenames] *)
Definition in_used (used_filenames : option (gset string)) (f : string) : bool :=
  match used_filenames with
  | None => false
  | Some s => negb (bool_decide (s = ∅)) && bool_decide (f ∈ s)
  end.

Definition is_json (file_info : FileInfo) : bool :=
  String.eqb (mime_type file_info) "application/json"
  || endswith (filename file_info) ".json".

Fixpoint extract_json_payload_loop (files : list FileInfo)
         (used_filenames : option (gset string))
  : outcome (option (value * string)) :=
  match files with
  | [] => mret None
  | file_info :: rest =>
    if in_used used_filenames (filename file_info)
    then extract_json_payload_loop rest used_filenames
    else if negb (is_json file_info)
    then extract_json_payload_loop rest used_filenames
    else try_except
           (raw ← decoded_text file_info;
            payload ← json_loads raw;
            mret (Some (payload, filename file_info)))
           (fun _ => extract_json_payload_loop rest used_filenames)
  end.

Definition extract_json_payload (files : list FileInfo)
           (used_filenames : option (gset string))
  : outcome (option (value * string)) :=
  match files with
  | [] => mret None
  | _ => extract_json_payload_loop files used_filenames
  end.

Definition payload_matches_schema (schema : list (string * value))
           (payload : value) : bool :=
  let expected_type := dict_get schema "type" in
  if eq_str expected_type "object" then isinstance_dict payload
  else if eq_str expected_type "array" then isinstance_list payload
  else true.

(** The texts appended by the loop over [result.content or []]. *)
Definition content_texts (result : CallToolResult) : list string :=
  omap (fun item =>
          match text item with
          | Some t => if truthy_str t then Some t else None
          | None => None
          end)
       (default [] (content result)).

Definition format_tool_result (result : CallToolResult) : outcome string :=
  structured_part ←
    match structuredContent result with
    | Some structured =>
      try_except (s ← json_dumps structured; mret [s])
                 (fun _ => mret [str_value structured])
    | None => mret []
    end;
  let text_parts := structured_part ++ content_texts result in
  let output := strip (join nl text_parts) in
  if truthy_str output then mret output else mret (str_result result).

End Functions.

(** ** Shared mutable state

    The objects the orchestrator and the interactive loop share by
    reference: the client with its session registry, the list of attached
    files, the set of filenames already passed automatically ([None] when
    the caller supplies no set), and what has been observed from outside:
    the requests sent and the lines printed, oldest first. *)

Inductive event : Type :=
| CreateAllSessions
| ListTools (server : string)
| CallTool (server tool : string) (arguments : value)
| AgentRun (prompt : string)
| Print (line : string).

Record Heap : Type := {
  client : MCPClient;
  attached_files : list FileInfo;
  auto_pass_used : option (gset string);
  trace : list event
}.

Definition M (A : Type) : Type := Heap -> outcome A * Heap.

#[global] Instance M_ret : MRet M := fun A a h => (Return a, h).

#[global] Instance M_bind : MBind M := fun A B k m h =>
  match m h with
  | (Return a, h') => k a h'
  | (Raise e, h') => (Raise e, h')
  end.

(** A pure computation run inside a stateful one. *)
Definition lift {A} (m : outcome A) : M A := fun h => (m, h).

(** [try: m  except Exception: handler] *)
Definition try_except_M {A} (m : M A) (handler : exn -> M A) : M A := fun h =>
  match m h with
  | (Return a, h') => (Return a, h')
  | (Raise e, h') => handler e h'
  end.

Definition emit (e : event) (h : Heap) : Heap :=
  {| client := client h; attached_files := attached_files h;
     auto_pass_used := auto_pass_used h; trace := trace h ++ [e] |}.

Definition set_sessions (ss : list (string * Session)) (h : Heap) : Heap :=
  {| client := {| sessions := ss; configured := configured (client h) |};
     attached_files := attached_files h;
     auto_pass_used := auto_pass_used h; trace := trace h |}.

Definition set_client (c : MCPClient) (h : Heap) : Heap :=
  {| client := c; attached_files := attached_files h;
     auto_pass_used := auto_pass_used h; trace := trace h |}.

Definition set_attached_files (fs : list FileInfo) (h : Heap) : Heap :=
  {| client := client h; attached_files := fs;
     auto_pass_used := auto_pass_used h; trace := trace h |}.

Definition set_auto_pass_used (u : option (gset string)) (h : Heap) : Heap :=
  {| client := client h; attached_files := attached_files h;
     auto_pass_used := u; trace := trace h |}.

(** [client.get_all_active_sessions()] *)
Definition get_all_active_sessions : M (list (string * Session)) := fun h =>
  (Return (sessions (client h)), h).

(** [await client.create_all_sessions()]: on success the registry holds the
    new sessions, and they are returned. *)
Definition create_all_sessions : M (list (string * Session)) := fun h =>
  let h := emit CreateAllSessions h in
  match configured (client h) with
  | Return ss => (Return ss, set_sessions ss h)
  | Raise e => (Raise e, h)
  end.

(** [await session.list_tools()] *)
Definition session_list_tools (server_name : string) (session : Session)
  : M (list Tool) := fun h =>
  (list_tools session, emit (ListTools server_name) h).

(** [await session.call_tool(name, arguments)] *)
Definition session_call_tool (server_name : string) (session : Session)
           (tool_name : string) (arguments : value) : M CallToolResult := fun h =>
  (call_tool session tool_name arguments,
   emit (CallTool server_name tool_name arguments) h).

Definition print (line : string) : M unit := fun h =>
  (Return tt, emit (Print line) h).

(** [if used_filenames is not None: used_filenames.add(filename)] *)
Definition mark_used (f : string) : M unit := fun h =>
  (Return tt,
   match auto_pass_used h with
   | Some s => set_auto_pass_used (Some ({[f]} ∪ s)) h
   | None => h
   end).

(** ** The orchestrator *)

Section Orchestrator.
Context `{Runtime}.

Definition ToolEntry : Type := string * Session * Tool.

(** The loop over [sessions.items()] that fills [tools]. *)
Fixpoint collect_tools (items : list (string * Session)) (tools : list ToolEntry)
  : M (list ToolEntry) :=
  match items with
  | [] => mret tools
  | (server_name, session) :: rest =>
    listed ← try_except_M
               (session_tools ← session_list_tools server_name session;
                mret (Some session_tools))
               (fun _ => mret None);
    match listed with
    | None => collect_tools rest tools
    | Some session_tools =>
      collect_tools rest
        (tools ++ map (fun tool => (server_name, session, tool)) session_tools)
    end
  end.

(** Lines 141-152 of the source: obtain the sessions, establishing them
    when none is active, and flatten their tools. *)
Definition enumerate_tools : M (list ToolEntry) :=
  sessions ← get_all_active_sessions;
  sessions ← (match sessions with
              | [] => create_all_sessions
              | _ => mret sessions
              end);
  collect_tools sessions [].

Definition maybe_auto_call_tool : M (option string) := fun h =>
  (payload_info ←
     lift (extract_json_payload (attached_files h) (auto_pass_used h));
   match payload_info with
   | None => mret None
   | Some (payload, filename) =>
     tools ← enumerate_tools;
     if negb (Nat.eqb (length tools) 1) then mret None
     else
       match tools !! 0%nat with
       | None => lift (Raise IndexError)
       | Some (server_name, session, tool) =>
         let input_schema := default [] (inputSchema tool) in
         if negb (payload_matches_schema input_schema payload) then mret None
         else
           result ← session_call_tool server_name session (name tool) payload;
           _ ← print (nl +:+ "Auto: called " +:+ server_name +:+ "."
                         +:+ name tool +:+ " with " +:+ filename);
           _ ← mark_used filename;
           formatted ← lift (format_tool_result result);
           mret (Some formatted)
       end
   end) h.

(** ** The interactive loop

    One iteration of [while True] in [interactive_mode], on what [input()]
    gives: a line, an interrupt, or the end of the input, which [input()]
    reports by raising [EOFError]. *)

Inductive console : Type :=
| Line (s : string)
| KeyboardInterrupt
| EndOfInput.

Inductive status : Type :=
| Continue
| Break
| Propagate (e : exn).

Definition lower_ascii (c : Ascii.ascii) : Ascii.ascii :=
  let n := code c in
  if (65 <=? n) && (n <=? 90) then Ascii.ascii_of_N (n + 32) else c.

(** [s.lower()], on the letters that matter for the two keywords compared
    with: no other character lowers to an ASCII letter. *)
Definition lower (s : string) : string :=
  String.string_of_list_ascii (map lower_ascii (String.list_ascii_of_string s)).

(** [s[n:]] for an ASCII prefix of [n] characters. *)
Definition drop_prefix (n : nat) (s : string) : string :=
  String.substring n (String.length s - n) s.

Definition help_lines : list string :=
  [nl +:+ "Commands:";
   "  /attach <file>  - Attach a file to the conversation";
   "  /files          - List attached files";
   "  /clear          - Clear attached files";
   "  /help           - Show this help";
   "  quit/exit       - Exit the agent"].

Definition print_all (lines : list string) (h : Heap) : Heap :=
  fold_left (fun h l => emit (Print l) h) lines h.

Definition describe (f : FileInfo) : string :=
  filename f +:+ " (" +:+ mime_type f +:+ ", "
    +:+ str_of_int (size f) +:+ " bytes)".

Fixpoint files_lines (i : Z) (files : list FileInfo) : list string :=
  match files with
  | [] => []
  | f :: rest =>
    ("  " +:+ str_of_int i +:+ ". " +:+ describe f) :: files_lines (i + 1) rest
  end.

(** [str(e)] for the exceptions that carry a message. *)
Definition exn_message (e : exn) : string :=
  match e with
  | FileNotFoundError m | OSError m | ValueError m | RuntimeError m => m
  | BinasciiError => "Incorrect padding"
  | UnicodeDecodeError => "'utf-8' codec can't decode"
  | JSONDecodeError => "Expecting value"
  | TypeError => "TypeError"
  | IndexError => "list index out of range"
  | EOFError => "EOF when reading a line"
  end.

Definition interactive_step (fs : gmap string fs_node) (inp : console) (h : Heap)
  : status * Heap :=
  match inp with
  | KeyboardInterrupt => (Break, emit (Print (nl +:+ "Goodbye!")) h)
  | EndOfInput => (Propagate EOFError, h)
  | Line raw_input =>
    let user_input := strip raw_input in
    if negb (truthy_str user_input) then (Continue, h)
    else if String.eqb (lower user_input) "quit"
            || String.eqb (lower user_input) "exit"
    then (Break, emit (Print "Goodbye!") h)
    else if startswith user_input "/attach " then
      let file_path := strip (drop_prefix 8 user_input) in
      match load_file fs file_path with
      | Return file_info =>
        (Continue,
         emit (Print ("Attached: " +:+ describe file_info))
              (set_attached_files (attached_files h ++ [file_info]) h))
      | Raise e => (Continue, emit (Print ("Error: " +:+ exn_message e)) h)
      end
    else if String.eqb user_input "/files" then
      match attached_files h with
      | [] => (Continue, emit (Print "No files attached") h)
      | files => (Continue, print_all ("Attached files:" :: files_lines 1 files) h)
      end
    else if String.eqb user_input "/clear" then
      (Continue, emit (Print "Cleared all attached files") (set_attached_files [] h))
    else if String.eqb user_input "/help" then
      (Continue, print_all help_lines h)
    else
      match maybe_auto_call_tool h with
      | (Raise e, h1) => (Propagate e, h1)
      | (Return (Some auto_result), h1) => (Continue, emit (Print auto_result) h1)
      | (Return None, h1) =>
        match build_prompt_with_files user_input (attached_files h1) with
        | Raise e => (Propagate e, h1)
        | Return full_prompt =>
          let h2 := emit (Print (nl +:+ "Agent: ")) h1 in
          let h3 := emit (AgentRun full_prompt) h2 in
          match agent_run full_prompt (client h3) with
          | (Raise e, c) => (Propagate e, set_client c h3)
          | (Return result, c) => (Continue, emit (Print result) (set_client c h3))
          end
        end
      end
  end.

(** The loop, on the successive inputs of a run. *)
Fixpoint interactive_mode (fs : gmap string fs_node) (inputs : list console)
         (h : Heap) : status * Heap :=
  match inputs with
  | [] => (Continue, h)
  | inp :: rest =>
    match interactive_step fs inp h with
    | (Continue, h') => interactive_mode fs rest h'
    | stopped => stopped
    end
  end.

End Orchestrator.

(** ** A runtime to run the scenarios

    The properties of Part II hold for every [Runtime].  The instance below
    is used to evaluate the functions on concrete inputs.  Its JSON reader
    and writer cover the documents without fractions, exponents and escape
    sequences, and reject the others. *)
Module Sample.

Definition chr (n : N) : Ascii.ascii := Ascii.ascii_of_N n.
Definition quote : Ascii.ascii := chr 34.
Definition str (l : list Ascii.ascii) : string := String.string_of_list_ascii l.
Definition chars (s : string) : list Ascii.ascii := String.list_ascii_of_string s.

Definition is_ws (c : Ascii.ascii) : bool :=
  let n := code c in (n =? 32) || (n =? 9) || (n =? 10) || (n =? 13).

Definition is_digit (c : Ascii.ascii) : bool :=
  let n := code c in (48 <=? n) && (n <=? 57).

Fixpoint skip_ws (s : list Ascii.ascii) : list Ascii.ascii :=
  match s with
  | c :: r => if is_ws c then skip_ws r else s
  | [] => []
  end.

Fixpoint take_digits (s : list Ascii.ascii) (acc : Z) : Z * list Ascii.ascii :=
  match s with
  | c :: r =>
    if is_digit c then take_digits r (10 * acc + (Z.of_N (code c) - 48))%Z
    else (acc, s)
  | [] => (acc, [])
  end.

(** The characters of a string literal up to its closing quote. *)
Fixpoint take_plain (s acc : list Ascii.ascii) : option (string * list Ascii.ascii) :=
  match s with
  | [] => None
  | c :: r =>
    let n := code c in
    if n =? 34 then Some (str (rev acc), r)
    else if (n =? 92) || (n <? 32) then None
    else take_plain r (c :: acc)
  end.

Definition take_number (s : list Ascii.ascii) : option (value * list Ascii.ascii) :=
  let '(negative, body) :=
    match s with
    | c :: r => if code c =? 45 then (true, r) else (false, s)
    | [] => (false, s)
    end in
  match body with
  | d :: r =>
    if negb (is_digit d) then None
    else
      let '(z, rest) :=
        if code d =? 48 then (0%Z, r) else take_digits body 0%Z in
      Some (PyInt (if negative then - z else z)%Z, rest)
  | [] => None
  end.

Definition keyword (k : string) (v : value) (s : list Ascii.ascii)
  : option (value * list Ascii.ascii) :=
  if String.prefix k (str s)
  then Some (v, drop (String.length k) s)
  else None.

Fixpoint set_entry (k : string) (v : value) (d : list (string * value))
  : list (string * value) :=
  match d with
  | [] => [(k, v)]
  | (k', v') :: d' =>
    if String.eqb k' k then (k', v) :: d' else (k', v') :: set_entry k v d'
  end.

Fixpoint parse_value (fuel : nat) (s : list Ascii.ascii)
  : option (value * list Ascii.ascii) :=
  match fuel with
  | O => None
  | S fuel =>
    match skip_ws s with
    | [] => None
    | c :: r =>
      let n := code c in
      if n =? 34 then
        match take_plain r [] with
        | Some (t, r') => Some (PyStr t, r')
        | None => None
        end
      else if n =? 91 then
        match skip_ws r with
        | c' :: r' =>
          if code c' =? 93 then Some (PyList [], r') else parse_items fuel r []
        | [] => None
        end
      else if n =? 123 then
        match skip_ws r with
        | c' :: r' =>
          if code c' =? 125 then Some (PyDict [], r') else parse_members fuel r []
        | [] => None
        end
      else if n =? 110 then keyword "null" PyNone (c :: r)
      else if n =? 116 then keyword "true" (PyBool true) (c :: r)
      else if n =? 102 then keyword "false" (PyBool false) (c :: r)
      else take_number (c :: r)
    end
  end
with parse_items (fuel : nat) (s : list Ascii.ascii) (acc : list value)
  : option (value * list Ascii.ascii) :=
  match fuel with
  | O => None
  | S fuel =>
    match parse_value fuel s with
    | None => None
    | Some (v, r) =>
      match skip_ws r with
      | c :: r' =>
        if code c =? 44 then parse_items fuel r' (acc ++ [v])
        else if code c =? 93 then Some (PyList (acc ++ [v]), r')
        else None
      | [] => None
      end
    end
  end
with parse_members (fuel : nat) (s : list Ascii.ascii) (acc : list (string * value))
  : option (value * list Ascii.ascii) :=
  match fuel with
  | O => None
  | S fuel =>
    match skip_ws s with
    | q :: r =>
      if negb (code q =? 34) then None
      else
        match take_plain r [] with
        | None => None
        | Some (k, r1) =>
          match skip_ws r1 with
          | colon :: r2 =>
            if negb (code colon =? 58) then None
            else
              match parse_value fuel r2 with
              | None => None
              | Some (v, r3) =>
                match skip_ws r3 with
                | c :: r4 =>
                  if code c =? 44 then parse_members fuel r4 (set_entry k v acc)
                  else if code c =? 125 then Some (PyDict (set_entry k v acc), r4)
                  else None
                | [] => None
                end
              end
          | [] => None
          end
        end
    | [] => None
    end
  end.

Definition loads (raw : string) : outcome value :=
  let s := chars raw in
  match parse_value (S (length s)) s with
  | Some (v, rest) =>
    match skip_ws rest with
    | [] => Return v
    | _ => Raise JSONDecodeError
    end
  | None => Raise JSONDecodeError
  end.

Definition plain (s : string) : bool :=
  forallb (fun c => let n := code c in
                    (32 <=? n) && (n <? 127) && negb (n =? 34) && negb (n =? 92))
          (chars s).

Definition quoted (s : string) : string :=
  String quote s +:+ String quote EmptyString.

Definition spaces (n : nat) : string := str (repeat (chr 32) n).

Definition sequence {A} (l : list (outcome A)) : outcome (list A) :=
  mapM (fun x => x) l.

(** [json.dumps(v, indent=2)], at nesting depth [depth]. *)
Fixpoint dumps_at (depth : nat) (v : value) : outcome string :=
  let inner := spaces (2 * S depth) in
  let sep := "," +:+ nl +:+ inner in
  match v with
  | PyNone => mret "null"
  | PyBool true => mret "true"
  | PyBool false => mret "false"
  | PyInt z => mret (str_of_int z)
  | PyFloat _ => Raise TypeError
  | PyStr s => if plain s then mret (quoted s) else Raise TypeError
  | PyList [] => mret "[]"
  | PyList items =>
    parts ← sequence (map (dumps_at (S depth)) items);
    mret ("[" +:+ nl +:+ inner +:+ join sep parts +:+ nl
              +:+ spaces (2 * depth) +:+ "]")
  | PyDict [] => mret "{}"
  | PyDict entries =>
    parts ← sequence
              (map (fun '(k, x) =>
                      if plain k
                      then (t ← dumps_at (S depth) x; mret (quoted k +:+ ": " +:+ t))
                      else Raise TypeError)
                   entries);
    mret ("{" +:+ nl +:+ inner +:+ join sep parts +:+ nl
              +:+ spaces (2 * depth) +:+ "}")
  end.

Definition dumps (v : value) : outcome string := dumps_at 0 v.

(** [str(v)] *)
Fixpoint repr (v : value) : string :=
  match v with
  | PyNone => "None"
  | PyBool true => "True"
  | PyBool false => "False"
  | PyInt z => str_of_int z
  | PyFloat _ => "<float>"
  | PyStr s => "'" +:+ s +:+ "'"
  | PyList items => "[" +:+ join ", " (map repr items) +:+ "]"
  | PyDict entries =>
    "{" +:+ join ", " (map (fun '(k, x) => "'" +:+ k +:+ "': " +:+ repr x) entries)
        +:+ "}"
  end.

Definition repr_item (i : ContentItem) : string :=
  match text i with
  | Some t => "TextContent(text='" +:+ t +:+ "')"
  | None => "ImageContent()"
  end.

Definition repr_result (r : CallToolResult) : string :=
  "content=["
    +:+ join ", " (map repr_item (default [] (content r)))
    +:+ "] structuredContent="
    +:+ match structuredContent r with Some v => repr v | None => "None" end.

(** The text after the last ['/']. *)
Fixpoint basename (s acc : list Ascii.ascii) : list Ascii.ascii :=
  match s with
  | [] => acc
  | c :: r => if code c =? 47 then basename r [] else basename r (acc ++ [c])
  end.

(** [str(Path(p))] on POSIX: the root, and the components that are neither
    empty nor a single dot, separated by one slash. *)
Fixpoint components (s cur : list Ascii.ascii) : list (list Ascii.ascii) :=
  match s with
  | [] => [cur]
  | c :: r =>
    if code c =? 47 then cur :: components r [] else components r (cur ++ [c])
  end.

Fixpoint leading_slashes (s : list Ascii.ascii) : nat :=
  match s with
  | c :: r => if code c =? 47 then S (leading_slashes r) else O
  | [] => O
  end.

Definition kept (part : list Ascii.ascii) : bool :=
  match part with
  | [] => false
  | [c] => negb (code c =? 46)
  | _ => true
  end.

Definition normalise (p : string) : string :=
  let s := chars p in
  let root :=
    match leading_slashes s with
    | O => EmptyString
    | 2%nat => "//"
    | _ => "/"
    end in
  let parts := map str (List.filter kept (components s [])) in
  match root, parts with
  | EmptyString, [] => "."
  | _, _ => root +:+
            (fix glue (l : list string) : string :=
               match l with
               | [] => EmptyString
               | [x] => x
               | x :: r => x +:+ "/" +:+ glue r
               end) parts
  end.

(** [repr] of a path without quotes, backslashes and unprintable
    characters. *)
Definition quoted_path (p : string) : string := "'" +:+ normalise p +:+ "'".

Definition guess (p : string) : option string :=
  if endswith p ".json" then Some "application/json"
  else if endswith p ".txt" then Some "text/plain"
  else if endswith p ".csv" then Some "text/csv"
  else if endswith p ".png" then Some "image/png"
  else None.

#[local] Instance runtime : Runtime := {|
  guess_type := guess;
  path_name := fun p => str (basename (chars p) []);
  path_absolute := fun p => if startswith p "/" then p else "/home/user/" +:+ p;
  path_repr := quoted_path;
  json_loads := loads;
  json_dumps := dumps;
  str_value := repr;
  str_result := repr_result;
  agent_run := fun prompt c => (Return ("(agent) " +:+ prompt), c)
|}.

End Sample.

(** ** Vocabulary of the properties

    The notions the statements of Part II are phrased with. *)

(** The 256 byte values. *)
Definition all_bytes : list N := map N.of_nat (seq 0 256).

Definition ascii_byte (b : Byte.byte) : Prop := Byte.to_N b <= 127.

(** The set of used filenames a caller supplies; none supplied counts as
    the empty set. *)
Definition used_set (used_filenames : option (gset string)) : gset string :=
  default ∅ used_filenames.

(** The mime type is textual ([text/*]) or JSON. *)
Definition textual (f : FileInfo) : Prop :=
  startswith (mime_type f) "text/" = true \/ mime_type f = "application/json".

(** The [type] a schema declares, if any. *)
Definition declared_type (schema : list (string * value)) : option value :=
  dict_get schema "type".

(** The text of every content item that has a non-empty text, in order. *)
Definition nonempty_texts (items : list ContentItem) : list string :=
  flat_map (fun item =>
              match text item with
              | Some t => if decide (t = EmptyString) then [] else [t]
              | None => []
              end) items.

(** The tools one session contributes: those it lists, none when the
    request fails. *)
Definition exposed (item : string * Session) : list (string * Session * Tool) :=
  match list_tools item.2 with
  | Return session_tools => map (fun tool => (item.1, item.2, tool)) session_tools
  | Raise _ => []
  end.

(** One tool-list request per session, in registry order. *)
Definition listing (items : list (string * Session)) : list event :=
  map (fun item => ListTools item.1) items.

(** [h'] has the attached files and the used filenames of [h]. *)
Definition same_files (h h' : Heap) : Prop :=
  attached_files h' = attached_files h /\ auto_pass_used h' = auto_pass_used h.

(** The heap once the single tool has answered: the call and the notice
    are recorded and the filename is marked. *)
Definition after_call (server_name tool_name : string) (payload : value)
           (fn : string) (h : Heap) : Heap :=
  let h := emit (CallTool server_name tool_name payload) h in
  let h := emit (Print (nl +:+ "Auto: called " +:+ server_name +:+ "."
                           +:+ tool_name +:+ " with " +:+ fn)) h in
  match auto_pass_used h with
  | Some s => set_auto_pass_used (Some ({[fn]} ∪ s)) h
  | None => h
  end.

Section Vocabulary.
Context `{Runtime}.

(** An attachment the extractor can use, and the payload it then yields:
    its filename is not used, its mime type is JSON or its name ends with
    [.json], and its bytes decode as UTF-8 and parse as JSON. *)
Definition usable (used_filenames : option (gset string)) (f : FileInfo)
           (payload : value) : Prop :=
  (filename f ∉ used_set used_filenames)
  /\ (mime_type f = "application/json" \/ endswith (filename f) ".json" = true)
  /\ exists content raw,
       Base64.b64decode (data f) = Return content
       /\ Utf8.decode content = Return raw
       /\ json_loads raw = Return payload.

Definition unusable (used_filenames : option (gset string)) (f : FileInfo) : Prop :=
  forall payload, ~ usable used_filenames f payload.

(** What the body of the [try] in the extractor yields on one attachment. *)
Definition attempt (f : FileInfo) : outcome (option (value * string)) :=
  raw ← decoded_text f;
  payload ← json_loads raw;
  mret (Some (payload, filename f)).

End Vocabulary.

(** ** Concrete inputs *)
Module Scenario.

Definition q : string := String Sample.quote EmptyString.

(** The document [{"x":1}]. *)
Definition x1_json : string := "{" +:+ q +:+ "x" +:+ q +:+ ":1}".

Definition fs : gmap string fs_node :=
  {[ "a.json" := RegularFile (String.list_byte_of_string x1_json);
     "broken.json" := RegularFile (String.list_byte_of_string "{oops");
     "notes.txt" := RegularFile (String.list_byte_of_string "remember the milk");
     "blob.bin" := RegularFile [Byte.xff; Byte.xfe; Byte.x00];
     "/srv/data" := Directory ]}.

Definition attach (p : string) : list FileInfo :=
  match @load_file Sample.runtime fs p with
  | Return f => [f]
  | Raise _ => []
  end.

Definition a_json : list FileInfo := attach "a.json".

(** A text file whose bytes are not UTF-8. *)
Definition latin1_txt : FileInfo :=
  {| filename := "latin1.txt"; mime_type := "text/plain";
     data := "6Q=="; size := 1; path := "/home/user/latin1.txt" |}.

Definition object_tool : Tool :=
  {| name := "process"; inputSchema := Some [("type", PyStr "object")] |}.

Definition array_tool : Tool :=
  {| name := "batch"; inputSchema := Some [("type", PyStr "array")] |}.

Definition ok_result : CallToolResult :=
  {| structuredContent := Some (PyDict [("ok", PyBool true)]);
     content := Some [ {| text := Some "done" |} ] |}.

Definition serving (tools : list Tool) : Session :=
  {| list_tools := Return tools; call_tool := fun _ _ => Return ok_result |}.

Definition unreachable : Session :=
  {| list_tools := Raise (RuntimeError "connection closed");
     call_tool := fun _ _ => Raise (RuntimeError "connection closed") |}.

Definition crashing (tools : list Tool) : Session :=
  {| list_tools := Return tools;
     call_tool := fun _ _ => Raise (RuntimeError "tool crashed") |}.

Definition connected (ss : list (string * Session)) : MCPClient :=
  {| sessions := ss; configured := Return ss |}.

Definition fresh (ss : list (string * Session)) : MCPClient :=
  {| sessions := []; configured := Return ss |}.

Definition offline : MCPClient :=
  {| sessions := []; configured := Raise (RuntimeError "connection refused") |}.

Definition heap (c : MCPClient) (files : list FileInfo)
           (used : option (gset string)) : Heap :=
  {| client := c; attached_files := files; auto_pass_used := used; trace := [] |}.

(** Two servers without tools, one of them failing, and one server with
    the single tool. *)
Definition three_servers : list (string * Session) :=
  [("idle", serving []); ("down", unreachable); ("skills", serving [object_tool])].

Definition one_server : list (string * Session) :=
  [("skills", serving [object_tool])].

Definition two_tools : list (string * Session) :=
  [("skills", serving [object_tool; array_tool])].

(** What the single tool's answer reads once formatted. *)
Definition ok_text : string :=
  "{" +:+ nl +:+ "  " +:+ q +:+ "ok" +:+ q +:+ ": true" +:+ nl +:+ "}"
      +:+ nl +:+ "done".

Definition notes_txt : FileInfo := hd latin1_txt (attach "notes.txt").
Definition blob_bin : FileInfo := hd latin1_txt (attach "blob.bin").

Definition notes_block : string :=
  nl +:+ "--- File: notes.txt ---" +:+ nl +:+ "remember the milk" +:+ nl
     +:+ "--- End of notes.txt ---" +:+ nl.

Definition latin1_line : string :=
  nl +:+ "[Attached file: latin1.txt (text/plain, 1 bytes)]" +:+ nl.

Definition blob_line : string :=
  nl +:+ "[Attached file: blob.bin (application/octet-stream, 3 bytes)]" +:+ nl.


End Scenario.

(** ** The rest of the program: [get_llm], [run_agent], the interactive
    session around the loop, and [main] *)

Inductive vendor : Type :=
| OpenAI
| Anthropic.

(** The arguments of [ChatOpenAI(model=..., api_key=...)] or
    [ChatAnthropic(model=..., api_key=...)]. *)
Record LlmSpec : Type := {
  llm_vendor : vendor;
  llm_model : string;
  llm_api_key : option string
}.

(** The entry [config["mcpServers"]["skills"]]. *)
Inductive server_config : Type :=
| HttpServer (url : string)
| StdioServer (command : string) (arguments : list string).

(** What is observed of a whole run, oldest first: the events of the
    heap's trace, the construction of a model client, the teardown. *)
Inductive action : Type :=
| Core (e : event)
| MakeLlm (spec : LlmSpec)
| DisconnectAll.

(** The process and the libraries behind [get_llm], [run_agent] and
    [interactive_mode], not modelled in detail. *)
Class Process : Type := {
  construct_llm : LlmSpec -> outcome unit;     (* ChatOpenAI(...), ChatAnthropic(...) *)
  from_dict : server_config -> MCPClient;      (* MCPClient.from_dict(config) *)
  disconnect_all : MCPClient -> outcome unit * MCPClient;
                                               (* await client.disconnect_all() *)
  abspath : string -> string;                  (* os.path.abspath *)
  cli_path : string                            (* the path of the CLI's index.js *)
}.

(** [os.getenv(key, fallback)] *)
Definition getenv (env : gmap string string) (key fallback : string) : string :=
  default fallback (env !! key).

Definition default_url : string := "http://localhost:3000/mcp".

(** The command-line arguments, as [argparse] returns them; [--file] is
    [None] when never given. *)
Record Args : Type := {
  arg_prompt : option string;
  arg_provider : string;
  arg_server_url : string;
  arg_files : option (list string);
  arg_skill_path : option string
}.

Section Program.
Context `{Runtime} `{Process}.

(** The constructor call [get_llm] makes. *)
Definition llm_request (env : gmap string string) (provider : string) : LlmSpec :=
  if String.eqb provider "openai"
  then {| llm_vendor := OpenAI;
          llm_model := getenv env "OPENAI_MODEL" "gpt-4o";
          llm_api_key := env !! "OPENAI_API_KEY" |}
  else {| llm_vendor := Anthropic;
          llm_model := getenv env "ANTHROPIC_MODEL" "claude-sonnet-4-20250514";
          llm_api_key := env !! "ANTHROPIC_API_KEY" |}.

Definition get_llm (env : gmap string string) (provider : string)
  : outcome LlmSpec :=
  let spec := llm_request env provider in
  _ ← construct_llm spec;
  mret spec.

(** The [finally] clause: [try: await client.disconnect_all()
    except Exception: pass]. *)
Definition teardown (c : MCPClient) : MCPClient := (disconnect_all c).2.

(** The [try] block of [run_agent], on the heap that holds the new client
    and the files; the result comes with the client and the log at the
    end of the block. *)
Definition run_agent_try (env : gmap string string) (prompt provider : string)
           (h : Heap) : outcome string * MCPClient * list action :=
  match maybe_auto_call_tool h with
  | (Raise e, h1) => (Raise e, client h1, map Core (trace h1))
  | (Return (Some auto_result), h1) =>
    (Return auto_result, client h1, map Core (trace h1))
  | (Return None, h1) =>
    let log := map Core (trace h1) ++ [MakeLlm (llm_request env provider)] in
    match get_llm env provider with
    | Raise e => (Raise e, client h1, log)
    | Return llm =>
      match build_prompt_with_files prompt (attached_files h) with
      | Raise e => (Raise e, client h1, log)
      | Return full_prompt =>
        let '(result, c) := agent_run full_prompt (client h1) in
        (result, c, log ++ [Core (AgentRun full_prompt)])
      end
    end
  end.

Definition run_agent (env : gmap string string) (prompt provider : string)
           (files : option (list FileInfo))
  : outcome string * MCPClient * list action :=
  let config := HttpServer (getenv env "MCP_SERVER_URL" default_url) in
  let h := {| client := from_dict config;
              attached_files := default [] files;
              auto_pass_used := None;
              trace := [] |} in
  let '(result, c, log) := run_agent_try env prompt provider h in
  (result, teardown c, log ++ [DisconnectAll]).

(** The lines [interactive_mode] prints before anything else. *)
Definition banner (provider : string) : list string :=
  ["Skills-Kit MCP Agent (Interactive Mode)";
   String.string_of_list_ascii (repeat (Ascii.ascii_of_N 61) 40);
   "Provider: " +:+ provider;
   nl +:+ "Commands:";
   "  /attach <file>  - Attach a file to the conversation";
   "  /files          - List attached files";
   "  /clear          - Clear attached files";
   "  /help           - Show this help";
   "  quit/exit       - Exit the agent";
   EmptyString].

Definition session_config (env : gmap string string) (skill_path : option string)
  : server_config :=
  match skill_path with
  | Some p =>
    if truthy_str p
    then StdioServer "node"
           [cli_path; "serve"; abspath p; "--transport"; "stdio"; "--install-deps"]
    else HttpServer (getenv env "MCP_SERVER_URL" default_url)
  | None => HttpServer (getenv env "MCP_SERVER_URL" default_url)
  end.

(** The whole of [interactive_mode]: the banner, the client and the model
    client, then the loop on the console inputs and, when the loop has
    stopped, the teardown.  [attached] and [used] are the two globals at
    the time of the call.  The status [Continue] means that the inputs
    given so far have all been processed and the loop waits for more. *)
Definition interactive_session (env : gmap string string)
           (fs : gmap string fs_node) (provider : string)
           (skill_path : option string) (attached : list FileInfo)
           (used : gset string) (inputs : list console)
  : status * Heap * list action :=
  let h0 := {| client := from_dict (session_config env skill_path);
               attached_files := attached;
               auto_pass_used := Some used;
               trace := [] |} in
  let start := map (fun l => Core (Print l)) (banner provider)
               ++ [MakeLlm (llm_request env provider)] in
  match get_llm env provider with
  | Raise e => (Propagate e, h0, start)
  | Return llm =>
    let '(st, h1) := interactive_mode fs inputs h0 in
    let log := start ++ map Core (trace h1) in
    match st with
    | Continue => (Continue, h1, log)
    | _ => (st, set_client (teardown (client h1)) h1, log ++ [DisconnectAll])
    end
  end.

(** The loop over [args.files]: the files loaded so far, or [None] when a
    path fails, with the lines printed. *)
Fixpoint preload (fs : gmap string fs_node) (paths : list string)
         (files : list FileInfo) : option (list FileInfo) * list string :=
  match paths with
  | [] => (Some files, [])
  | file_path :: rest =>
    match load_file fs file_path with
    | Return file_info =>
      let '(loaded, printed) := preload fs rest (files ++ [file_info]) in
      (loaded,
       ("Loaded: " +:+ filename file_info +:+ " ("
                   +:+ str_of_int (size file_info) +:+ " bytes)") :: printed)
    | Raise e =>
      (None, ["Error loading " +:+ file_path +:+ ": " +:+ exn_message e])
    end
  end.

(** What [main] ends in: nothing, [run_agent] or [interactive_mode]. *)
Inductive launched : Type :=
| Aborted
| SinglePrompt (run : outcome string * MCPClient * list action)
| InteractiveMode (run : status * Heap * list action).

(** [main], after [parse_args]: the lines it prints itself and what it
    launches.  [inputs] is what the console gives in interactive mode. *)
Definition main (env : gmap string string) (fs : gmap string fs_node)
           (args : Args) (inputs : list console) : list string * launched :=
  let env := <["MCP_SERVER_URL" := arg_server_url args]> env in
  let '(loaded, printed) := preload fs (default [] (arg_files args)) [] in
  match loaded with
  | None => (printed, Aborted)
  | Some files =>
    let interactive :=
      (printed,
       InteractiveMode
         (interactive_session env fs (arg_provider args) (arg_skill_path args)
                              files ∅ inputs)) in
    match arg_prompt args with
    | Some prompt =>
      if truthy_str prompt then
        let run := run_agent env prompt (arg_provider args) (Some files) in
        (printed ++ match run.1.1 with
                    | Return result => [result]
                    | Raise _ => []
                    end,
         SinglePrompt run)
      else interactive
    | None => interactive
    end
  end.

End Program.

(** A request of the enumerator: establishing the sessions, or asking a
    session for its tools. *)
Definition is_request (e : event) : bool :=
  match e with
  | CreateAllSessions | ListTools _ => true
  | _ => false
  end.

(** The notice printed after an automatic call. *)
Definition auto_notice (server_name tool_name fn : string) : string :=
  nl +:+ "Auto: called " +:+ server_name +:+ "." +:+ tool_name
     +:+ " with " +:+ fn.

(** The inputs the loop handles by itself, without the orchestrator or the
    agent. *)
Definition is_command (user_input : string) : Prop :=
  user_input = EmptyString
  \/ lower user_input = "quit" \/ lower user_input = "exit"
  \/ startswith user_input "/attach " = true
  \/ user_input = "/files" \/ user_input = "/clear" \/ user_input = "/help".

(** The line [main] prints for a file it has loaded. *)
Definition loaded_line (f : FileInfo) : string :=
  "Loaded: " +:+ filename f +:+ " (" +:+ str_of_int (size f) +:+ " bytes)".

(** The paths all load, to these files, in order. *)
Definition all_load `{Runtime} (fs : gmap string fs_node) (paths : list string)
           (files : list FileInfo) : Prop :=
  Forall2 (fun p f => load_file fs p = Return f) paths files.

(** The heap [run_agent] starts from. *)
Definition single_shot_heap `{Process} (url : string) (files : list FileInfo)
  : Heap :=
  {| client := from_dict (HttpServer url);
     attached_files := files;
     auto_pass_used := None;
     trace := [] |}.

(** The heap the interactive loop starts from. *)
Definition session_heap (c : MCPClient) (attached : list FileInfo)
           (used : gset string) : Heap :=
  {| client := c; attached_files := attached;
     auto_pass_used := Some used; trace := [] |}.

(** What is logged before the loop reads its first input. *)
Definition session_start `{Runtime} `{Process} (env : gmap string string)
           (provider : string) : list action :=
  map (fun l => Core (Print l)) (banner provider)
  ++ [MakeLlm (llm_request env provider)].

(** ** A process to run the whole program *)
Module Cases.

(** Three servers can be configured: the default URL serves the single
    tool, [http://crash] serves a tool whose calls fail, and any other
    configuration serves nothing. *)
Definition connect (cfg : server_config) : MCPClient :=
  match cfg with
  | HttpServer url =>
    if String.eqb url default_url then Scenario.fresh Scenario.one_server
    else if String.eqb url "http://crash"
    then Scenario.fresh [("skills", Scenario.crashing [Scenario.object_tool])]
    else Scenario.fresh []
  | StdioServer _ _ => Scenario.fresh Scenario.one_server
  end.

#[local] Instance process : Process := {|
  construct_llm := fun spec =>
    match llm_api_key spec with
    | Some _ => Return tt
    | None => Raise (ValueError "api_key is required")
    end;
  from_dict := connect;
  disconnect_all := fun c =>
    (Return tt, {| sessions := []; configured := configured c |});
  abspath := fun p => if startswith p "/" then p else "/work/" +:+ p;
  cli_path := "/repo/packages/cli/dist/index.js"
|}.

Definition keys : gmap string string := {[ "ANTHROPIC_API_KEY" := "sk-test" ]}.

Definition crash_env : gmap string string :=
  {[ "MCP_SERVER_URL" := "http://crash" ]}.

Definition args_empty_prompt : Args :=
  {| arg_prompt := Some EmptyString;
     arg_provider := "anthropic";
     arg_server_url := default_url;
     arg_files := Some ["a.json"];
     arg_skill_path := None |}.

End Cases.

(* ===================================================================== *)
(** * Part II.  Properties                                                *)
(* ===================================================================== *)


(** ** Bytes, by exhaustive check *)

Lemma in_all_bytes n : n <= 255 -> In n all_bytes.
Proof.
  intros Hn. unfold all_bytes.
  replace n with (N.of_nat (N.to_nat n)) by apply N2Nat.id.
  apply in_map, in_seq. lia.
Qed.

Lemma check_bytes (P : N -> bool) :
  forallb P all_bytes = true -> forall n, n <= 255 -> P n = true.
Proof.
  intros Hall n Hn. rewrite forallb_forall in Hall.
  apply Hall, in_all_bytes, Hn.
Qed.

Lemma check_bytes2 (P : N -> N -> bool) :
  forallb (fun a => forallb (P a) all_bytes) all_bytes = true ->
  forall a b, a <= 255 -> b <= 255 -> P a b = true.
Proof.
  intros Hall a b Ha Hb.
  apply (check_bytes (P a)); [|exact Hb].
  apply (check_bytes (fun a => forallb (P a) all_bytes)); assumption.
Qed.

Lemma to_uchar_to_N x : Base64.to_uchar (Byte.to_N x) = x.
Proof.
  unfold Base64.to_uchar.
  pose proof (Byte.to_N_bounded x).
  rewrite N.mod_small by lia.
  now rewrite Byte.of_to_N.
Qed.

Lemma sextet_decodes n :
  n < 64 -> Base64.a2b (Base64.b2a n) = Some n
            /\ Byte.eqb (Base64.b2a n) Base64.pad = false.
Proof.
  intros Hn.
  assert (H : (match Base64.a2b (Base64.b2a n) with
               | Some m => m =? n | None => false end
               && negb (Byte.eqb (Base64.b2a n) Base64.pad)
               || (64 <=? n)) = true).
  { apply (check_bytes (fun n =>
       match Base64.a2b (Base64.b2a n) with
       | Some m => m =? n | None => false end
       && negb (Byte.eqb (Base64.b2a n) Base64.pad)
       || (64 <=? n))); [vm_compute; reflexivity | lia]. }
  apply orb_true_iff in H as [H | H]; [| apply N.leb_le in H; lia].
  apply andb_true_iff in H as [H1 H2].
  destruct (Base64.a2b (Base64.b2a n)) as [m|]; [|discriminate].
  apply N.eqb_eq in H1. subst m. split; [reflexivity|].
  now apply negb_true_iff.
Qed.

(** The arithmetic of a group: the sextets cut from three bytes [a], [b],
    [c] are below 64, and the shifts of the decoder put the bytes back
    together.  Each fact involves two bytes and is checked on all pairs. *)

Ltac by_bytes P :=
  let H := fresh in
  intros a Ha;
  pose proof (check_bytes P ltac:(vm_compute; reflexivity) a Ha) as H;
  cbv beta in H;
  first [ now apply N.eqb_eq in H | now apply N.ltb_lt in H ].

Ltac by_bytes2 P :=
  let H := fresh in
  intros a b Ha Hb;
  pose proof (check_bytes2 P ltac:(vm_compute; reflexivity) a b Ha Hb) as H;
  cbv beta in H;
  first [ now apply N.eqb_eq in H | now apply N.ltb_lt in H ].

Lemma sextet1_lt a : a <= 255 -> N.shiftr a 2 < 64.
Proof. revert a. by_bytes (fun a => N.shiftr a 2 <? 64). Qed.

Lemma sextet2_lt a b :
  a <= 255 -> b <= 255 -> N.lor (N.shiftl (N.land a 3) 4) (N.shiftr b 4) < 64.
Proof.
  revert a b.
  by_bytes2 (fun a b => N.lor (N.shiftl (N.land a 3) 4) (N.shiftr b 4) <? 64).
Qed.

Lemma sextet2_last_lt a : a <= 255 -> N.shiftl (N.land a 3) 4 < 64.
Proof. revert a. by_bytes (fun a => N.shiftl (N.land a 3) 4 <? 64). Qed.

Lemma sextet3_lt b c :
  b <= 255 -> c <= 255 -> N.lor (N.shiftl (N.land b 15) 2) (N.shiftr c 6) < 64.
Proof.
  revert b c.
  by_bytes2 (fun b c => N.lor (N.shiftl (N.land b 15) 2) (N.shiftr c 6) <? 64).
Qed.

Lemma sextet3_last_lt b : b <= 255 -> N.shiftl (N.land b 15) 2 < 64.
Proof. revert b. by_bytes (fun b => N.shiftl (N.land b 15) 2 <? 64). Qed.

Lemma sextet4_lt c : c <= 255 -> N.land c 63 < 64.
Proof. revert c. by_bytes (fun c => N.land c 63 <? 64). Qed.

Lemma byte1_rebuilt a b :
  a <= 255 -> b <= 255 ->
  N.lor (N.shiftl (N.shiftr a 2) 2)
        (N.shiftr (N.lor (N.shiftl (N.land a 3) 4) (N.shiftr b 4)) 4) = a.
Proof.
  revert a b.
  by_bytes2 (fun a b =>
    N.lor (N.shiftl (N.shiftr a 2) 2)
          (N.shiftr (N.lor (N.shiftl (N.land a 3) 4) (N.shiftr b 4)) 4) =? a).
Qed.

Lemma byte1_last_rebuilt a :
  a <= 255 ->
  N.lor (N.shiftl (N.shiftr a 2) 2) (N.shiftr (N.shiftl (N.land a 3) 4) 4) = a.
Proof.
  revert a.
  by_bytes (fun a =>
    N.lor (N.shiftl (N.shiftr a 2) 2) (N.shiftr (N.shiftl (N.land a 3) 4) 4) =? a).
Qed.

Lemma left2 a b :
  a <= 255 -> b <= 255 ->
  N.land (N.lor (N.shiftl (N.land a 3) 4) (N.shiftr b 4)) 15 = N.shiftr b 4.
Proof.
  revert a b.
  by_bytes2 (fun a b =>
    N.land (N.lor (N.shiftl (N.land a 3) 4) (N.shiftr b 4)) 15 =? N.shiftr b 4).
Qed.

Lemma byte2_rebuilt b c :
  b <= 255 -> c <= 255 ->
  N.lor (N.shiftl (N.shiftr b 4) 4)
        (N.shiftr (N.lor (N.shiftl (N.land b 15) 2) (N.shiftr c 6)) 2) = b.
Proof.
  revert b c.
  by_bytes2 (fun b c =>
    N.lor (N.shiftl (N.shiftr b 4) 4)
          (N.shiftr (N.lor (N.shiftl (N.land b 15) 2) (N.shiftr c 6)) 2) =? b).
Qed.

Lemma byte2_last_rebuilt b :
  b <= 255 ->
  N.lor (N.shiftl (N.shiftr b 4) 4) (N.shiftr (N.shiftl (N.land b 15) 2) 2) = b.
Proof.
  revert b.
  by_bytes (fun b =>
    N.lor (N.shiftl (N.shiftr b 4) 4) (N.shiftr (N.shiftl (N.land b 15) 2) 2) =? b).
Qed.

Lemma left3 b c :
  b <= 255 -> c <= 255 ->
  N.land (N.lor (N.shiftl (N.land b 15) 2) (N.shiftr c 6)) 3 = N.shiftr c 6.
Proof.
  revert b c.
  by_bytes2 (fun b c =>
    N.land (N.lor (N.shiftl (N.land b 15) 2) (N.shiftr c 6)) 3 =? N.shiftr c 6).
Qed.

Lemma byte3_rebuilt c :
  c <= 255 -> N.lor (N.shiftl (N.shiftr c 6) 6) (N.land c 63) = c.
Proof.
  revert c.
  by_bytes (fun c => N.lor (N.shiftl (N.shiftr c 6) 6) (N.land c 63) =? c).
Qed.

Lemma a2b_loop_sextet n rest quad_pos leftchar pads out :
  n < 64 ->
  Base64.a2b_loop (Base64.b2a n :: rest) quad_pos leftchar pads out =
  match quad_pos with
  | 0 => Base64.a2b_loop rest 1 n 0 out
  | 1 => Base64.a2b_loop rest 2 (N.land n 15) 0
           (Base64.to_uchar (N.lor (N.shiftl leftchar 2) (N.shiftr n 4)) :: out)
  | 2 => Base64.a2b_loop rest 3 (N.land n 3) 0
           (Base64.to_uchar (N.lor (N.shiftl leftchar 4) (N.shiftr n 2)) :: out)
  | _ => Base64.a2b_loop rest 0 0 0
           (Base64.to_uchar (N.lor (N.shiftl leftchar 6) n) :: out)
  end.
Proof.
  intros Hn. destruct (sextet_decodes n Hn) as [Ha Hp].
  cbn [Base64.a2b_loop]. rewrite Hp, Ha. reflexivity.
Qed.

Lemma list_ind3 {A} (P : list A -> Prop) :
  P [] -> (forall x, P [x]) -> (forall x y, P [x; y]) ->
  (forall x y z l, P l -> P (x :: y :: z :: l)) ->
  forall l, P l.
Proof.
  intros H0 H1 H2 H3.
  fix IH 1. intros [|x [|y [|z l]]].
  - exact H0.
  - apply H1.
  - apply H2.
  - apply H3, IH.
Qed.

Lemma a2b_loop_encoded data :
  forall out,
    Base64.a2b_loop (Base64.b2a_base64 data) 0 0 0 out = Return (rev out ++ data).
Proof.
  induction data as [|x|x y|x y z rest IH] using list_ind3; intros out.
  - cbn. now rewrite app_nil_r.
  - pose proof (Byte.to_N_bounded x) as Hx.
    cbn [Base64.b2a_base64].
    rewrite a2b_loop_sextet by now apply sextet1_lt.
    rewrite a2b_loop_sextet by now apply sextet2_last_lt.
    rewrite byte1_last_rebuilt, to_uchar_to_N by assumption.
    cbn. reflexivity.
  - pose proof (Byte.to_N_bounded x) as Hx.
    pose proof (Byte.to_N_bounded y) as Hy.
    cbn [Base64.b2a_base64].
    rewrite a2b_loop_sextet by now apply sextet1_lt.
    rewrite a2b_loop_sextet by now apply sextet2_lt.
    rewrite a2b_loop_sextet by now apply sextet3_last_lt.
    rewrite byte1_rebuilt, left2, byte2_last_rebuilt, !to_uchar_to_N by assumption.
    cbn. rewrite <- app_assoc. reflexivity.
  - pose proof (Byte.to_N_bounded x) as Hx.
    pose proof (Byte.to_N_bounded y) as Hy.
    pose proof (Byte.to_N_bounded z) as Hz.
    cbn [Base64.b2a_base64].
    rewrite a2b_loop_sextet by now apply sextet1_lt.
    rewrite a2b_loop_sextet by now apply sextet2_lt.
    rewrite a2b_loop_sextet by now apply sextet3_lt.
    rewrite a2b_loop_sextet by now apply sextet4_lt.
    rewrite byte1_rebuilt, left2, byte2_rebuilt, left3, byte3_rebuilt,
      !to_uchar_to_N by assumption.
    rewrite IH. cbn. rewrite <- !app_assoc. reflexivity.
Qed.

Lemma a2b_base64_b2a_base64 data :
  Base64.a2b_base64 (Base64.b2a_base64 data) = Return data.
Proof. unfold Base64.a2b_base64. now rewrite a2b_loop_encoded. Qed.

(** ** The encoded text is ASCII, hence decodes as UTF-8 *)

Lemma b2a_ascii n : ascii_byte (Base64.b2a n).
Proof.
  unfold ascii_byte.
  destruct (N.le_gt_cases n 255) as [Hn | Hn].
  - pose proof (check_bytes (fun n => Byte.to_N (Base64.b2a n) <=? 127)
                  ltac:(vm_compute; reflexivity) n Hn) as H.
    now apply N.leb_le in H.
  - unfold Base64.b2a. rewrite nth_overflow; [cbn; lia|].
    change (length Base64.alphabet) with 64%nat. lia.
Qed.

Lemma b2a_base64_ascii data : Forall ascii_byte (Base64.b2a_base64 data).
Proof.
  assert (Hpad : ascii_byte Base64.pad) by (unfold ascii_byte; cbn; lia).
  induction data as [|x|x y|x y z rest IH] using list_ind3;
    cbn [Base64.b2a_base64]; repeat constructor; auto using b2a_ascii.
Qed.

Lemma well_formed_ascii l :
  Forall (fun n => n <= 127) l -> Utf8.well_formed l = true.
Proof.
  induction 1 as [|n l Hn _ IH]; [reflexivity|].
  cbn [Utf8.well_formed].
  apply N.leb_le in Hn. now rewrite Hn.
Qed.

Lemma decode_ascii bs :
  Forall ascii_byte bs -> Utf8.decode bs = Return (String.string_of_list_byte bs).
Proof.
  intros Hbs. unfold Utf8.decode.
  rewrite well_formed_ascii; [reflexivity|].
  apply Forall_map. exact Hbs.
Qed.

Lemma is_ascii_of_bytes bs :
  Forall ascii_byte bs -> Base64.is_ascii (String.string_of_list_byte bs) = true.
Proof.
  intros Hbs. unfold Base64.is_ascii, String.string_of_list_byte.
  rewrite String.list_ascii_of_string_of_list_ascii.
  apply forallb_forall. intros c Hc.
  apply in_map_iff in Hc as (b & <- & Hb).
  rewrite Forall_forall in Hbs. apply list_elem_of_In in Hb.
  specialize (Hbs b Hb). unfold ascii_byte in Hbs.
  unfold code. rewrite Ascii.ascii_of_byte_via_N.
  rewrite Ascii.N_ascii_embedding by lia.
  apply N.ltb_lt. lia.
Qed.

(** Decoding what [load_file] stores gives the content back. *)
Lemma b64decode_b64encode content :
  exists text,
    Utf8.decode (Base64.b64encode content) = Return text
    /\ Base64.b64decode text = Return content.
Proof.
  pose proof (b2a_base64_ascii content) as Hascii.
  exists (String.string_of_list_byte (Base64.b64encode content)). split.
  - now apply decode_ascii.
  - unfold Base64.b64decode.
    rewrite is_ascii_of_bytes by exact Hascii.
    rewrite String.list_byte_of_string_of_list_byte.
    apply a2b_base64_b2a_base64.
Qed.


Section Extractor.
Context `{Runtime}.

Lemma in_used_spec used f : in_used used f = true <-> f ∈ used_set used.
Proof.
  unfold in_used, used_set. destruct used as [s|]; cbn.
  - rewrite andb_true_iff, negb_true_iff, bool_decide_eq_false, bool_decide_eq_true.
    split; [tauto|]. intros Hf. split; [|exact Hf]. set_solver.
  - split; [discriminate|]. set_solver.
Qed.

Lemma is_json_spec f :
  is_json f = true <->
  (mime_type f = "application/json" \/ endswith (filename f) ".json" = true).
Proof.
  unfold is_json. rewrite orb_true_iff, String.eqb_eq. reflexivity.
Qed.

Lemma attempt_returns f r :
  attempt f = Return r <->
  exists content raw payload,
    Base64.b64decode (data f) = Return content
    /\ Utf8.decode content = Return raw
    /\ json_loads raw = Return payload
    /\ r = Some (payload, filename f).
Proof.
  unfold attempt, decoded_text.
  destruct (Base64.b64decode (data f)) as [content|e] eqn:E1; cbn.
  2: { split; [discriminate|]. intros (? & ? & ? & ? & _); discriminate. }
  destruct (Utf8.decode content) as [raw|e] eqn:E2; cbn.
  2: { split; [discriminate|].
       intros (c & ? & ? & Hc & Hd & _). injection Hc as <-. congruence. }
  destruct (json_loads raw) as [payload|e] eqn:E3; cbn.
  2: { split; [discriminate|].
       intros (c & r' & ? & Hc & Hd & Hj & _).
       injection Hc as <-. rewrite E2 in Hd. injection Hd as <-. congruence. }
  split.
  - intros [= <-]. eauto 10.
  - intros (c & r' & p & Hc & Hd & Hj & ->).
    injection Hc as <-. rewrite E2 in Hd. injection Hd as <-.
    rewrite E3 in Hj. injection Hj as <-. reflexivity.
Qed.

(** One step of the scan. *)
Lemma loop_step f rest used :
  extract_json_payload_loop (f :: rest) used =
  if in_used used (filename f) || negb (is_json f)
  then extract_json_payload_loop rest used
  else match attempt f with
       | Return r => Return r
       | Raise _ => extract_json_payload_loop rest used
       end.
Proof.
  cbn [extract_json_payload_loop].
  destruct (in_used used (filename f)); [reflexivity|].
  destruct (is_json f); reflexivity.
Qed.

Lemma usable_iff used f payload :
  usable used f payload <->
  in_used used (filename f) || negb (is_json f) = false
  /\ attempt f = Return (Some (payload, filename f)).
Proof.
  unfold usable.
  rewrite orb_false_iff, negb_false_iff, is_json_spec, attempt_returns.
  rewrite <- not_true_iff_false, in_used_spec.
  split.
  - intros (Hu & Hj & c & raw & Hc & Hd & Hl). split_and!; eauto 10.
  - intros ((Hu & Hj) & c & raw & p & Hc & Hd & Hl & [= ->]). eauto 10.
Qed.

Lemma loop_found files used payload fn :
  extract_json_payload_loop files used = Return (Some (payload, fn)) <->
  exists before f after,
    files = before ++ f :: after
    /\ fn = filename f
    /\ usable used f payload
    /\ Forall (unusable used) before.
Proof.
  induction files as [|g rest IH].
  - cbn. split; [discriminate|]. intros (b & f & a & Hf & _).
    now destruct b.
  - rewrite loop_step.
    destruct (in_used used (filename g) || negb (is_json g)) eqn:Hskip.
    + rewrite IH. split.
      * intros (b & f & a & -> & -> & Hu & Hb).
        exists (g :: b), f, a. split_and!; auto.
        constructor; [|exact Hb].
        intros p Hp. apply usable_iff in Hp as [Hp _]. congruence.
      * intros (b & f & a & Hf & -> & Hu & Hb).
        destruct b as [|g' b]; cbn in Hf; injection Hf as -> ->.
        -- apply usable_iff in Hu as [Hu _]. congruence.
        -- apply Forall_cons in Hb as [_ Hb]. eauto 10.
    + destruct (attempt g) as [r|e] eqn:Hatt.
      * pose proof Hatt as Hatt'.
        apply attempt_returns in Hatt' as (c & raw & p & _ & _ & _ & ->).
        split.
        -- intros [= <- <-]. exists [], g, rest. split_and!; auto.
           apply usable_iff. auto.
        -- intros (b & f & a & Hf & -> & Hu & Hb).
           destruct b as [|g' b]; cbn in Hf; injection Hf as -> ->.
           ++ apply usable_iff in Hu as [_ Hu]. congruence.
           ++ apply Forall_cons in Hb as [Hg _]. exfalso.
              apply (Hg p). apply usable_iff. auto.
      * rewrite IH. split.
        -- intros (b & f & a & -> & -> & Hu & Hb).
           exists (g :: b), f, a. split_and!; auto.
           constructor; [|exact Hb].
           intros p Hp. apply usable_iff in Hp as [_ Hp]. congruence.
        -- intros (b & f & a & Hf & -> & Hu & Hb).
           destruct b as [|g' b]; cbn in Hf; injection Hf as -> ->.
           ++ apply usable_iff in Hu as [_ Hu]. congruence.
           ++ apply Forall_cons in Hb as [_ Hb]. eauto 10.
Qed.

Lemma loop_none files used :
  extract_json_payload_loop files used = Return None <->
  Forall (unusable used) files.
Proof.
  induction files as [|g rest IH].
  - cbn. split; auto.
  - rewrite loop_step.
    destruct (in_used used (filename g) || negb (is_json g)) eqn:Hskip.
    + rewrite IH. split.
      * intros Hr. constructor; [|exact Hr].
        intros p Hp. apply usable_iff in Hp as [Hp _]. congruence.
      * intros Hr. now apply Forall_cons in Hr as [_ Hr].
    + destruct (attempt g) as [r|e] eqn:Hatt.
      * pose proof Hatt as Hatt'.
        apply attempt_returns in Hatt' as (c & raw & p & _ & _ & _ & ->).
        split; [discriminate|].
        intros Hr. apply Forall_cons in Hr as [Hg _]. exfalso.
        apply (Hg p). apply usable_iff. auto.
      * rewrite IH. split.
        -- intros Hr. constructor; [|exact Hr].
           intros p Hp. apply usable_iff in Hp as [_ Hp]. congruence.
        -- intros Hr. now apply Forall_cons in Hr as [_ Hr].
Qed.

Lemma loop_returns files used : returns (extract_json_payload_loop files used).
Proof.
  induction files as [|g rest IH].
  - now exists None.
  - rewrite loop_step.
    destruct (in_used used (filename g) || negb (is_json g)); [exact IH|].
    destruct (attempt g) as [r|e]; [now exists r | exact IH].
Qed.

Lemma extract_json_payload_unfold files used :
  extract_json_payload files used = extract_json_payload_loop files used.
Proof. now destruct files. Qed.

(** Claim C3.  For every list of attachments and every set of used
    filenames, [extract_json_payload] never raises; it returns the pair
    (payload, filename) of the first attachment, in order, that is usable:
    filename not used, mime type JSON or name ending in [.json], bytes that
    decode as UTF-8 and parse as JSON.  Attachments before it are all
    unusable (a candidate that fails to decode or parse is skipped and the
    scan goes on).  It returns [None] exactly when no attachment is usable,
    in particular on the empty list, and the filename it returns is never
    in the set of used filenames. *)
Theorem extract_json_payload_first_usable files used :
  returns (extract_json_payload files used)
  /\ (forall payload fn,
        extract_json_payload files used = Return (Some (payload, fn)) <->
        exists before f after,
          files = before ++ f :: after
          /\ fn = filename f
          /\ usable used f payload
          /\ Forall (unusable used) before)
  /\ (extract_json_payload files used = Return None <->
      Forall (unusable used) files)
  /\ (forall payload fn,
        extract_json_payload files used = Return (Some (payload, fn)) ->
        fn ∉ used_set used)
  /\ (files = [] -> extract_json_payload files used = Return None).
Proof.
  rewrite extract_json_payload_unfold.
  split; [apply loop_returns|].
  split; [intros; apply loop_found|].
  split; [apply loop_none|].
  split.
  - intros payload fn Hr.
    apply loop_found in Hr as (b & f & a & _ & -> & (Hu & _) & _). exact Hu.
  - intros ->. reflexivity.
Qed.

End Extractor.


Section Pure.
Context `{Runtime}.

(** Claim C4.  [payload_matches_schema] returns true exactly when the
    declared type is ["object"] and the payload is a dict, or the declared
    type is ["array"] and the payload is a list, or the declared type is
    anything else, absent included.  In particular an object schema rejects
    every list and an array schema rejects every dict. *)
Theorem payload_matches_schema_shallow schema payload :
  (payload_matches_schema schema payload = true <->
   (declared_type schema = Some (PyStr "object")
    /\ exists entries, payload = PyDict entries)
   \/ (declared_type schema = Some (PyStr "array")
       /\ exists items, payload = PyList items)
   \/ (declared_type schema <> Some (PyStr "object")
       /\ declared_type schema <> Some (PyStr "array")))
  /\ (declared_type schema = Some (PyStr "object") ->
      forall items, payload_matches_schema schema (PyList items) = false)
  /\ (declared_type schema = Some (PyStr "array") ->
      forall entries, payload_matches_schema schema (PyDict entries) = false).
Proof.
  unfold payload_matches_schema, declared_type.
  destruct (dict_get schema "type") as [[| | | |s| |]|];
    try (cbn; split_and!; [split; [intros _; right; right; split; congruence
                                  | reflexivity]
                          | discriminate | discriminate]).
  unfold eq_str.
  destruct (String.eqb_spec s "object") as [->|Hobj].
  { split_and!.
    - split.
      + destruct payload; cbn; try discriminate. intros _. left. eauto.
      + intros [[_ [entries ->]] | [[[=] _] | [Hne _]]]; [reflexivity | congruence].
    - reflexivity.
    - discriminate. }
  destruct (String.eqb_spec s "array") as [->|Harr].
  { split_and!.
    - split.
      + destruct payload; cbn; try discriminate. intros _. right. left. eauto.
      + intros [[[=] _] | [[_ [items ->]] | [_ Hne]]]; [reflexivity | congruence].
    - discriminate.
    - reflexivity. }
  split_and!.
  - split; [|reflexivity]. intros _. right. right. split; congruence.
  - congruence.
  - congruence.
Qed.

(** ** Prompt composer *)

Lemma format_file_for_prompt_cases f :
  format_file_for_prompt f =
  Return (if startswith (mime_type f) "text/"
             || String.eqb (mime_type f) "application/json"
          then match decoded_text f with
               | Return content => file_block f content
               | Raise _ => file_placeholder f
               end
          else file_placeholder f).
Proof.
  unfold format_file_for_prompt.
  destruct (startswith (mime_type f) "text/"
            || String.eqb (mime_type f) "application/json"); [|reflexivity].
  destruct (decoded_text f); reflexivity.
Qed.

Lemma textual_test f :
  startswith (mime_type f) "text/" || String.eqb (mime_type f) "application/json"
  = true <-> textual f.
Proof. unfold textual. now rewrite orb_true_iff, String.eqb_eq. Qed.

Lemma mapM_format files :
  exists blocks,
    mapM format_file_for_prompt files = Return blocks
    /\ Forall2 (fun f b => format_file_for_prompt f = Return b) files blocks.
Proof.
  induction files as [|f files (blocks & Hm & Hb)].
  - exists []. split; [reflexivity | constructor].
  - destruct (format_file_for_prompt f) as [b|e] eqn:Hf.
    2: { rewrite format_file_for_prompt_cases in Hf. discriminate. }
    exists (b :: blocks). split.
    + cbn. rewrite Hf. cbn. rewrite Hm. reflexivity.
    + constructor; assumption.
Qed.

(** Claim C7.  An attachment whose mime type starts with [text/] or is
    JSON, and whose bytes decode as UTF-8, is rendered as the block
    [--- File: name ---], content, [--- End of name ---]; any other
    attachment, or one whose decoding fails, is rendered as the line
    [[Attached file: name (mime, size bytes)]], and the composition does not
    fail.  The blocks are joined in attachment order and put before the
    free text, separated by newlines; without attachments the prompt is
    the free text. *)
Theorem build_prompt_with_files_renders prompt files :
  (forall f content,
      textual f -> decoded_text f = Return content ->
      format_file_for_prompt f =
      Return (nl +:+ "--- File: " +:+ filename f +:+ " ---" +:+ nl
                 +:+ content +:+ nl
                 +:+ "--- End of " +:+ filename f +:+ " ---" +:+ nl))
  /\ (forall f,
         ~ textual f \/ (exists e, decoded_text f = Raise e) ->
         format_file_for_prompt f =
         Return (nl +:+ "[Attached file: " +:+ filename f
                    +:+ " (" +:+ mime_type f +:+ ", "
                    +:+ str_of_int (size f) +:+ " bytes)]" +:+ nl))
  /\ (exists blocks,
         Forall2 (fun f b => format_file_for_prompt f = Return b) files blocks
         /\ build_prompt_with_files prompt files =
            Return (match files with
                    | [] => prompt
                    | _ => join nl blocks +:+ nl +:+ prompt
                    end))
  /\ build_prompt_with_files prompt [] = Return prompt.
Proof.
  split_and!.
  - intros f content Ht Hd. rewrite format_file_for_prompt_cases.
    apply textual_test in Ht. rewrite Ht, Hd. reflexivity.
  - intros f Hf. rewrite format_file_for_prompt_cases.
    destruct (startswith (mime_type f) "text/"
              || String.eqb (mime_type f) "application/json") eqn:Ht;
      [|reflexivity].
    destruct Hf as [Hn | [e He]].
    + exfalso. apply Hn, textual_test, Ht.
    + rewrite He. reflexivity.
  - destruct (mapM_format files) as (blocks & Hm & Hb).
    exists blocks. split; [exact Hb|].
    destruct files as [|f files]; [reflexivity|].
    unfold build_prompt_with_files. rewrite Hm. reflexivity.
  - reflexivity.
Qed.

(** ** Result formatter *)

Lemma content_texts_spec result :
  content_texts result = nonempty_texts (default [] (content result)).
Proof.
  unfold content_texts. generalize (default [] (content result)).
  induction l as [|item l IH]; [reflexivity|].
  cbn. destruct (text item) as [[|c t]|]; cbn; now rewrite IH.
Qed.

Lemma truthy_str_spec s : truthy_str s = false <-> s = EmptyString.
Proof. destruct s; cbn; split; congruence. Qed.

(** Claim C8.  [format_tool_result] never raises.  Its output is the
    structured content as indented JSON when present (its [str] form when
    it cannot be serialised), followed by the text of every content item
    with a non-empty text, one per line, the whole stripped; when that is
    empty the output is [str(result)]. *)
Theorem format_tool_result_layout result :
  let rendered :=
    match structuredContent result with
    | Some structured =>
      [match json_dumps structured with
       | Return indented => indented
       | Raise _ => str_value structured
       end]
    | None => []
    end in
  let combined :=
    strip (join nl (rendered ++ nonempty_texts (default [] (content result)))) in
  format_tool_result result =
  Return (if decide (combined = EmptyString) then str_result result else combined).
Proof.
  intros rendered combined. unfold format_tool_result.
  assert (Hpart :
    match structuredContent result with
    | Some structured =>
      try_except (s ← json_dumps structured; mret [s])
                 (fun _ => mret [str_value structured])
    | None => mret []
    end = Return rendered).
  { subst rendered. destruct (structuredContent result) as [v|]; [|reflexivity].
    destruct (json_dumps v); reflexivity. }
  rewrite Hpart. cbn [mbind outcome_bind].
  rewrite content_texts_spec. fold combined.
  destruct (decide (combined = EmptyString)) as [He|Hne].
  - apply truthy_str_spec in He. rewrite He. reflexivity.
  - destruct (truthy_str combined) eqn:Ht; [reflexivity|].
    apply truthy_str_spec in Ht. contradiction.
Qed.

(** ** Loader *)


End Pure.


Section Enumerator.
Context `{Runtime}.

Lemma collect_tools_spec items :
  forall tools h,
    exists h',
      collect_tools items tools h = (Return (tools ++ flat_map exposed items), h')
      /\ client h' = client h
      /\ trace h' = trace h ++ listing items
      /\ same_files h h'.
Proof.
  induction items as [|[server_name session] rest IH]; intros tools h.
  - exists h. cbn. rewrite !app_nil_r. repeat split.
  - cbn [collect_tools].
    unfold mbind at 1, M_bind, try_except_M, session_list_tools.
    unfold mbind at 1, M_bind. unfold exposed at 1. cbn [fst snd flat_map].
    destruct (list_tools session) as [session_tools|e]; cbn.
    + destruct (IH (tools ++ map (fun tool => (server_name, session, tool))
                                 session_tools)
                   (emit (ListTools server_name) h))
        as (h' & Hc & Hcl & Htr & Hfiles).
      exists h'. rewrite Hc, <- app_assoc. split; [reflexivity|].
      split; [exact Hcl|]. split; [|exact Hfiles].
      rewrite Htr. cbn. now rewrite <- app_assoc.
    + destruct (IH tools (emit (ListTools server_name) h))
        as (h' & Hc & Hcl & Htr & Hfiles).
      exists h'. rewrite Hc. split; [reflexivity|].
      split; [exact Hcl|]. split; [|exact Hfiles].
      rewrite Htr. cbn. now rewrite <- app_assoc.
Qed.

Lemma enumerate_tools_active h :
  sessions (client h) <> [] ->
  exists h',
    enumerate_tools h = (Return (flat_map exposed (sessions (client h))), h')
    /\ client h' = client h
    /\ trace h' = trace h ++ listing (sessions (client h))
    /\ same_files h h'.
Proof.
  intros Hne. unfold enumerate_tools.
  unfold mbind at 1, M_bind, get_all_active_sessions.
  destruct (sessions (client h)) as [|item rest] eqn:Hs; [contradiction|].
  unfold mbind, M_bind, mret, M_ret.
  destruct (collect_tools_spec (item :: rest) [] h) as (h' & Hc & Hrest).
  exists h'. rewrite Hc. split; [reflexivity | exact Hrest].
Qed.

Lemma enumerate_tools_established h ss :
  sessions (client h) = [] ->
  configured (client h) = Return ss ->
  exists h',
    enumerate_tools h = (Return (flat_map exposed ss), h')
    /\ sessions (client h') = ss
    /\ configured (client h') = configured (client h)
    /\ trace h' = trace h ++ CreateAllSessions :: listing ss
    /\ same_files h h'.
Proof.
  intros Hs Hc. unfold enumerate_tools.
  unfold mbind at 1, M_bind, get_all_active_sessions. rewrite Hs.
  unfold mbind, M_bind, create_all_sessions. cbn. rewrite Hc.
  destruct (collect_tools_spec ss [] (set_sessions ss (emit CreateAllSessions h)))
    as (h' & Hcoll & Hcl & Htr & Hf1 & Hf2).
  exists h'. rewrite Hcoll. split; [reflexivity|].
  rewrite Hcl, Htr. unfold same_files. rewrite Hf1, Hf2. cbn.
  rewrite <- app_assoc. repeat split; auto.
Qed.

Lemma enumerate_tools_refused h e :
  sessions (client h) = [] ->
  configured (client h) = Raise e ->
  enumerate_tools h = (Raise e, emit CreateAllSessions h).
Proof.
  intros Hs Hc. unfold enumerate_tools.
  unfold mbind at 1, M_bind, get_all_active_sessions. rewrite Hs.
  unfold mbind, M_bind, create_all_sessions. cbn. rewrite Hc. reflexivity.
Qed.

(** Whatever the registry, the files and the used filenames are left
    alone, and the tools returned are those of the sessions in the
    registry afterwards. *)
Lemma enumerate_tools_frame h r h' :
  enumerate_tools h = (r, h') ->
  same_files h h'
  /\ (forall tools, r = Return tools ->
                    tools = flat_map exposed (sessions (client h'))).
Proof.
  intros He.
  destruct (sessions (client h)) as [|item rest] eqn:Hs.
  - destruct (configured (client h)) as [ss|e] eqn:Hc.
    + destruct (enumerate_tools_established h ss Hs Hc)
        as (h1 & He1 & Hss & _ & _ & Hf).
      rewrite He in He1. injection He1 as -> ->.
      split; [exact Hf|]. intros tools [= <-]. now rewrite Hss.
    + rewrite (enumerate_tools_refused h e Hs Hc) in He.
      injection He as <- <-. split; [split; reflexivity | discriminate].
  - destruct (enumerate_tools_active h) as (h1 & He1 & Hcl & _ & Hf).
    { rewrite Hs. discriminate. }
    rewrite He in He1. injection He1 as -> ->.
    split; [exact Hf|]. intros tools [= <-]. now rewrite Hcl.
Qed.

(** Claim C6.  The enumerator establishes the sessions of the configured
    servers only when the registry is empty, and that is its only change to
    the registry: with active sessions the client is left as it is and no
    session is established.  Each session is asked for its tools once, in
    order; a session whose request fails contributes no tool and the
    enumeration goes on, so that listing the sessions never fails. *)
Theorem enumerate_tools_isolates_failures h :
  (forall items tools h0,
      exists h1,
        collect_tools items tools h0
        = (Return (tools ++ flat_map exposed items), h1)
        /\ client h1 = client h0
        /\ trace h1 = trace h0 ++ listing items)
  /\ (sessions (client h) <> [] ->
      exists h',
        enumerate_tools h = (Return (flat_map exposed (sessions (client h))), h')
        /\ client h' = client h
        /\ trace h' = trace h ++ listing (sessions (client h)))
  /\ (sessions (client h) = [] ->
      forall ss, configured (client h) = Return ss ->
      exists h',
        enumerate_tools h = (Return (flat_map exposed ss), h')
        /\ sessions (client h') = ss
        /\ trace h' = trace h ++ CreateAllSessions :: listing ss)
  /\ (sessions (client h) = [] ->
      forall e, configured (client h) = Raise e ->
      exists h',
        enumerate_tools h = (Raise e, h')
        /\ client h' = client h
        /\ trace h' = trace h ++ [CreateAllSessions]).
Proof.
  split_and!.
  - intros items tools h0.
    destruct (collect_tools_spec items tools h0) as (h1 & ? & ? & ? & _). eauto.
  - intros Hne.
    destruct (enumerate_tools_active h Hne) as (h' & ? & ? & ? & _). eauto.
  - intros Hs ss Hc.
    destruct (enumerate_tools_established h ss Hs Hc) as (h' & ? & ? & _ & ? & _).
    eauto.
  - intros Hs e Hc. rewrite (enumerate_tools_refused h e Hs Hc).
    eexists. split_and!; reflexivity.
Qed.

End Enumerator.


Section OrchestratorFacts.
Context `{Runtime}.

Lemma format_tool_result_returns result : returns (format_tool_result result).
Proof.
  unfold format_tool_result.
  destruct (structuredContent result) as [v|]; cbn.
  - destruct (json_dumps v); cbn;
      match goal with |- returns (if ?b then _ else _) => destruct b end;
      eexists; reflexivity.
  - match goal with |- returns (if ?b then _ else _) => destruct b end;
      eexists; reflexivity.
Qed.

Lemma maybe_auto_call_tool_unfold h :
  maybe_auto_call_tool h =
  match extract_json_payload (attached_files h) (auto_pass_used h) with
  | Raise e => (Raise e, h)
  | Return None => (Return None, h)
  | Return (Some (payload, fn)) =>
    match enumerate_tools h with
    | (Raise e, h1) => (Raise e, h1)
    | (Return tools, h1) =>
      match tools with
      | [(server_name, session, tool)] =>
        if payload_matches_schema (default [] (inputSchema tool)) payload
        then match call_tool session (name tool) payload with
             | Raise e =>
               (Raise e, emit (CallTool server_name (name tool) payload) h1)
             | Return result =>
               (formatted ← format_tool_result result; mret (Some formatted),
                after_call server_name (name tool) payload fn h1)
             end
        else (Return None, h1)
      | _ => (Return None, h1)
      end
    end
  end.
Proof.
  unfold maybe_auto_call_tool.
  unfold mbind at 1, M_bind, lift.
  destruct (extract_json_payload (attached_files h) (auto_pass_used h))
    as [[[payload fn]|]|e]; try reflexivity.
  unfold mbind at 1, M_bind.
  destruct (enumerate_tools h) as [[tools|e] h1]; [|reflexivity].
  destruct tools as [|[[server_name session] tool] [|second rest]];
    try reflexivity.
  cbn [length Nat.eqb negb lookup list_lookup].
  destruct (payload_matches_schema (default [] (inputSchema tool)) payload);
    [|reflexivity].
  cbn [negb]. unfold mbind at 1, M_bind, session_call_tool.
  destruct (call_tool session (name tool) payload) as [result|e]; [|reflexivity].
  unfold mbind, M_bind, print, mark_used, after_call, lift, mret, M_ret.
  cbn.
  destruct (format_tool_result_returns result) as [formatted Hf].
  rewrite Hf.
  destruct (auto_pass_used h1); reflexivity.
Qed.

Lemma after_call_files server_name tool_name payload fn h :
  attached_files (after_call server_name tool_name payload fn h) = attached_files h
  /\ auto_pass_used (after_call server_name tool_name payload fn h)
     = (fun s => {[fn]} ∪ s) <$> auto_pass_used h.
Proof.
  unfold after_call. cbn.
  destruct (auto_pass_used h) eqn:Hu; cbn; rewrite ?Hu; split; reflexivity.
Qed.

(** The three ways to a result, told apart by the result. *)
Lemma maybe_auto_call_tool_effect h r h' :
  maybe_auto_call_tool h = (r, h') ->
  attached_files h' = attached_files h
  /\ ((auto_pass_used h' = auto_pass_used h
       /\ forall formatted, r <> Return (Some formatted))
      \/ exists payload fn formatted,
           extract_json_payload (attached_files h) (auto_pass_used h)
           = Return (Some (payload, fn))
           /\ r = Return (Some formatted)
           /\ auto_pass_used h' = (fun s => {[fn]} ∪ s) <$> auto_pass_used h).
Proof.
  rewrite maybe_auto_call_tool_unfold.
  destruct (extract_json_payload (attached_files h) (auto_pass_used h))
    as [[[payload fn]|]|e] eqn:Hx.
  2,3: intros [= <- <-]; split; [reflexivity|]; left; split; [reflexivity|];
       intros; discriminate.
  destruct (enumerate_tools h) as [r1 h1] eqn:He.
  apply enumerate_tools_frame in He as [[Hf Hu] _].
  destruct r1 as [tools|e].
  2: { intros [= <- <-]. split; [exact Hf|]. left. split; [exact Hu|].
       intros; discriminate. }
  assert (Hnone : (Return None, h1) = (r, h') ->
          attached_files h' = attached_files h
          /\ ((auto_pass_used h' = auto_pass_used h
               /\ forall formatted, r <> Return (Some formatted))
              \/ exists payload0 fn0 formatted,
                   Return (Some (payload, fn)) = Return (Some (payload0, fn0))
                   /\ r = Return (Some formatted)
                   /\ auto_pass_used h'
                      = (fun s => {[fn0]} ∪ s) <$> auto_pass_used h)).
  { intros [= <- <-]. split; [exact Hf|]. left. split; [exact Hu|].
    intros; discriminate. }
  destruct tools as [|[[server_name session] tool] [|second rest]]; auto.
  destruct (payload_matches_schema (default [] (inputSchema tool)) payload); auto.
  destruct (call_tool session (name tool) payload) as [result|e].
  - destruct (format_tool_result_returns result) as [formatted Hfmt].
    rewrite Hfmt. cbn. intros [= <- <-].
    destruct (after_call_files server_name (name tool) payload fn h1) as [Ha Hb].
    split; [congruence|]. right. exists payload, fn, formatted.
    split_and!; [reflexivity | reflexivity |]. rewrite Hb, Hu. reflexivity.
  - intros [= <- <-]. cbn. split; [exact Hf|]. left. split; [exact Hu|].
    intros; discriminate.
Qed.

Lemma length_flat_map_exposed items :
  length (flat_map exposed items) = sum_list (map (fun item => length (exposed item)) items).
Proof.
  induction items as [|item rest IH]; [reflexivity|].
  cbn. rewrite length_app, IH. reflexivity.
Qed.

(** Claim C1.  Whatever the attachments and the used filenames, when the
    tools discovered over all sessions are not exactly one,
    [maybe_auto_call_tool] returns [None].  The count is the sum over the
    sessions of the registry, so sessions without tools (or whose listing
    failed) next to one session with one tool make one tool: then, with a
    payload that matches the schema, the outcome of the orchestrator is the
    outcome of calling that tool. *)
Theorem maybe_auto_call_tool_needs_one_tool h :
  (forall tools h1,
      enumerate_tools h = (Return tools, h1) ->
      length tools <> 1%nat ->
      (maybe_auto_call_tool h).1 = Return None)
  /\ (forall tools h1,
         enumerate_tools h = (Return tools, h1) ->
         length tools
         = sum_list (map (fun item => length (exposed item))
                         (sessions (client h1))))
  /\ (forall payload fn tools h1,
         extract_json_payload (attached_files h) (auto_pass_used h)
         = Return (Some (payload, fn)) ->
         enumerate_tools h = (Return tools, h1) ->
         length tools = 1%nat ->
         exists server_name session tool,
           tools = [(server_name, session, tool)]
           /\ (payload_matches_schema (default [] (inputSchema tool)) payload
               = true ->
               (maybe_auto_call_tool h).1
               = (result ← call_tool session (name tool) payload;
                  formatted ← format_tool_result result;
                  mret (Some formatted)))).
Proof.
  split_and!.
  - intros tools h1 He Hlen. rewrite maybe_auto_call_tool_unfold, He.
    pose proof (loop_returns (attached_files h) (auto_pass_used h)) as [r Hr].
    rewrite <- extract_json_payload_unfold in Hr. rewrite Hr.
    destruct r as [[payload fn]|]; [|reflexivity].
    destruct tools as [|[[server_name session] tool] [|second rest]];
      try reflexivity.
    now contradiction Hlen.
  - intros tools h1 He.
    apply enumerate_tools_frame in He as [_ He].
    rewrite (He tools eq_refl). apply length_flat_map_exposed.
  - intros payload fn tools h1 Hx He Hlen.
    destruct tools as [|[[server_name session] tool] [|second rest]];
      try discriminate.
    exists server_name, session, tool. split; [reflexivity|].
    intros Hm. rewrite maybe_auto_call_tool_unfold, Hx, He, Hm.
    destruct (call_tool session (name tool) payload); reflexivity.
Qed.

(** Claim C5.  [maybe_auto_call_tool] changes the set of used filenames
    only when it returns a result.  On the fast path (a payload, one tool,
    a matching schema), a failing tool call makes the orchestrator raise
    that very exception, the set of used filenames unchanged; a successful
    call adds the filename of the payload to the set. *)
Theorem maybe_auto_call_tool_marks_on_success h :
  (forall r h',
      maybe_auto_call_tool h = (r, h') ->
      auto_pass_used h' <> auto_pass_used h ->
      exists formatted, r = Return (Some formatted))
  /\ (forall payload fn server_name session tool h1,
         extract_json_payload (attached_files h) (auto_pass_used h)
         = Return (Some (payload, fn)) ->
         enumerate_tools h = (Return [(server_name, session, tool)], h1) ->
         payload_matches_schema (default [] (inputSchema tool)) payload = true ->
         (forall e,
             call_tool session (name tool) payload = Raise e ->
             exists h',
               maybe_auto_call_tool h = (Raise e, h')
               /\ auto_pass_used h' = auto_pass_used h
               /\ trace h' = trace h1 ++ [CallTool server_name (name tool) payload])
         /\ (forall result,
                call_tool session (name tool) payload = Return result ->
                exists formatted h',
                  maybe_auto_call_tool h = (Return (Some formatted), h')
                  /\ format_tool_result result = Return formatted
                  /\ auto_pass_used h'
                     = (fun s => {[fn]} ∪ s) <$> auto_pass_used h)).
Proof.
  split.
  - intros r h' Hm Hneq.
    apply maybe_auto_call_tool_effect in Hm
      as [_ [[Hsame _] | (payload & fn & formatted & _ & -> & _)]].
    + contradiction.
    + eauto.
  - intros payload fn server_name session tool h1 Hx He Hm.
    pose proof He as Hframe. apply enumerate_tools_frame in Hframe as [[_ Hu] _].
    split.
    + intros e Hcall. eexists.
      rewrite maybe_auto_call_tool_unfold, Hx, He, Hm, Hcall.
      split_and!; [reflexivity | exact Hu | reflexivity].
    + intros result Hcall.
      destruct (format_tool_result_returns result) as [formatted Hfmt].
      exists formatted. eexists.
      rewrite maybe_auto_call_tool_unfold, Hx, He, Hm, Hcall, Hfmt.
      split_and!; [reflexivity | reflexivity |].
      destruct (after_call_files server_name (name tool) payload fn h1) as [_ Hb].
      rewrite Hb, Hu. reflexivity.
Qed.

(** Claim C10.  When [maybe_auto_call_tool] returns [None], the attached
    files and the used filenames are as before.  When no payload can be
    extracted, the whole heap is as before: no session is established and
    no tool list is requested.  Returning [None] has three causes only: no
    payload, a number of tools other than one, a schema that does not
    match. *)
Theorem maybe_auto_call_tool_abstains_cleanly h :
  (forall h',
      maybe_auto_call_tool h = (Return None, h') ->
      attached_files h' = attached_files h
      /\ auto_pass_used h' = auto_pass_used h)
  /\ (extract_json_payload (attached_files h) (auto_pass_used h) = Return None ->
      maybe_auto_call_tool h = (Return None, h))
  /\ (forall h',
         maybe_auto_call_tool h = (Return None, h') ->
         extract_json_payload (attached_files h) (auto_pass_used h) = Return None
         \/ exists payload fn tools,
              extract_json_payload (attached_files h) (auto_pass_used h)
              = Return (Some (payload, fn))
              /\ enumerate_tools h = (Return tools, h')
              /\ (length tools <> 1%nat
                  \/ exists server_name session tool,
                       tools = [(server_name, session, tool)]
                       /\ payload_matches_schema
                            (default [] (inputSchema tool)) payload = false)).
Proof.
  split_and!.
  - intros h' Hm.
    apply maybe_auto_call_tool_effect in Hm
      as [Hf [[Hu _] | (payload & fn & formatted & _ & [=] & _)]].
    split; assumption.
  - intros Hx. rewrite maybe_auto_call_tool_unfold, Hx. reflexivity.
  - intros h'. rewrite maybe_auto_call_tool_unfold.
    destruct (extract_json_payload (attached_files h) (auto_pass_used h))
      as [[[payload fn]|]|e]; [|auto|discriminate].
    destruct (enumerate_tools h) as [[tools|e] h1]; [|discriminate].
    intros Hm. right. exists payload, fn, tools.
    destruct tools as [|[[server_name session] tool] [|second rest]].
    + injection Hm as <-. split_and!; auto.
    + destruct (payload_matches_schema (default [] (inputSchema tool)) payload)
        eqn:Hpm.
      * destruct (call_tool session (name tool) payload) as [result|e];
          [|discriminate].
        destruct (format_tool_result_returns result) as [formatted Hfmt].
        rewrite Hfmt in Hm. discriminate.
      * injection Hm as <-. split_and!; eauto 10.
    + injection Hm as <-. split_and!; auto.
Qed.

End OrchestratorFacts.


Section Loop.
Context `{Runtime}.

Lemma print_all_used lines :
  forall h, auto_pass_used (print_all lines h) = auto_pass_used h
            /\ attached_files (print_all lines h) = attached_files h.
Proof.
  unfold print_all.
  induction lines as [|l lines IH]; intros h; [split; reflexivity|].
  cbn. destruct (IH (emit (Print l) h)) as [-> ->]. split; reflexivity.
Qed.

(** A turn changes the used filenames only by an automatic call that
    returned a result. *)
Lemma interactive_step_used fs inp h :
  let h' := (interactive_step fs inp h).2 in
  auto_pass_used h' = auto_pass_used h
  \/ exists formatted h1,
       maybe_auto_call_tool h = (Return (Some formatted), h1)
       /\ auto_pass_used h' = auto_pass_used h1.
Proof.
  unfold interactive_step.
  destruct inp as [raw| |]; [|left; reflexivity..].
  destruct (negb (truthy_str (strip raw))); [left; reflexivity|].
  destruct (String.eqb (lower (strip raw)) "quit"
            || String.eqb (lower (strip raw)) "exit"); [left; reflexivity|].
  destruct (startswith (strip raw) "/attach ").
  { destruct (load_file fs (strip (drop_prefix 8 (strip raw))));
      left; reflexivity. }
  destruct (String.eqb (strip raw) "/files").
  { destruct (attached_files h) eqn:Hfiles; [left; reflexivity|].
    left. cbn [snd]. apply print_all_used. }
  destruct (String.eqb (strip raw) "/clear"); [left; reflexivity|].
  destruct (String.eqb (strip raw) "/help").
  { left. cbn [snd]. apply print_all_used. }
  destruct (maybe_auto_call_tool h) as [[[formatted|]|e] h1] eqn:Hm.
  - right. exists formatted, h1. split; reflexivity.
  - apply maybe_auto_call_tool_effect in Hm
      as [_ [[Hu _] | (? & ? & ? & _ & [=] & _)]].
    left. rewrite <- Hu.
    destruct (build_prompt_with_files (strip raw) (attached_files h1));
      [|reflexivity].
    destruct (agent_run _ _) as [[result|e] c]; reflexivity.
  - apply maybe_auto_call_tool_effect in Hm
      as [_ [[Hu _] | (? & ? & ? & _ & [=] & _)]].
    left. exact Hu.
Qed.

Lemma used_set_grows_by_call h formatted h1 :
  maybe_auto_call_tool h = (Return (Some formatted), h1) ->
  used_set (auto_pass_used h) ⊆ used_set (auto_pass_used h1).
Proof.
  intros Hm.
  apply maybe_auto_call_tool_effect in Hm
    as [_ [[_ Hno] | (payload & fn & f' & _ & _ & ->)]].
  - now contradiction (Hno formatted).
  - unfold used_set. destruct (auto_pass_used h); cbn; set_solver.
Qed.

Lemma interactive_step_grows fs inp h :
  used_set (auto_pass_used h)
  ⊆ used_set (auto_pass_used (interactive_step fs inp h).2).
Proof.
  destruct (interactive_step_used fs inp h) as [-> | (formatted & h1 & Hm & ->)].
  - reflexivity.
  - eapply used_set_grows_by_call, Hm.
Qed.

Lemma interactive_mode_grows fs inputs :
  forall h,
    used_set (auto_pass_used h)
    ⊆ used_set (auto_pass_used (interactive_mode fs inputs h).2).
Proof.
  induction inputs as [|inp rest IH]; intros h; [reflexivity|].
  cbn [interactive_mode].
  pose proof (interactive_step_grows fs inp h) as Hstep.
  destruct (interactive_step fs inp h) as [[| |e] h1]; cbn [snd] in *.
  - etrans; [exact Hstep | apply IH].
  - exact Hstep.
  - exact Hstep.
Qed.

Lemma clear_step fs raw h :
  strip raw = "/clear" ->
  interactive_step fs (Line raw) h
  = (Continue, emit (Print "Cleared all attached files") (set_attached_files [] h)).
Proof.
  intros Hraw. unfold interactive_step. rewrite Hraw. reflexivity.
Qed.

(** Claim C2, amended.  Along the interactive loop the set of used
    filenames only grows, and a turn changes it only by an automatic call
    that returned a result.  It is never reset: [/clear] empties the list
    of attached files and leaves the used filenames as they are, so a
    filename once used is never returned again by the extractor, whatever
    is attached later. *)
Theorem auto_pass_used_is_never_reset fs h :
  (forall inp,
      let h' := (interactive_step fs inp h).2 in
      used_set (auto_pass_used h) ⊆ used_set (auto_pass_used h')
      /\ (auto_pass_used h' <> auto_pass_used h ->
          exists formatted h1,
            maybe_auto_call_tool h = (Return (Some formatted), h1)
            /\ auto_pass_used h' = auto_pass_used h1))
  /\ (forall inputs,
         used_set (auto_pass_used h)
         ⊆ used_set (auto_pass_used (interactive_mode fs inputs h).2))
  /\ (forall raw,
         strip raw = "/clear" ->
         let h' := (interactive_step fs (Line raw) h).2 in
         attached_files h' = [] /\ auto_pass_used h' = auto_pass_used h)
  /\ (forall inputs files payload fn,
         fn ∈ used_set (auto_pass_used h) ->
         extract_json_payload files
           (auto_pass_used (interactive_mode fs inputs h).2)
         <> Return (Some (payload, fn))).
Proof.
  split_and!.
  - intros inp h'. split; [apply interactive_step_grows|].
    intros Hneq.
    destruct (interactive_step_used fs inp h) as [Hsame | Hcall];
      [contradiction | exact Hcall].
  - intros inputs. apply interactive_mode_grows.
  - intros raw Hraw h'. subst h'. rewrite (clear_step fs raw h Hraw).
    split; reflexivity.
  - intros inputs files payload fn Hin Hx.
    rewrite extract_json_payload_unfold in Hx.
    apply loop_found in Hx as (b & f & a & _ & -> & (Hu & _) & _).
    apply Hu. eapply interactive_mode_grows, Hin.
Qed.

End Loop.

(** ** From the file on disk to the prompt and to the payload *)

Section Disk.
Context `{Runtime}.

(** What [load_file] returns on a regular file. *)
Lemma load_file_regular fs file_path content :
  fs !! file_path = Some (RegularFile content) ->
  exists stored,
    Utf8.decode (Base64.b64encode content) = Return stored
    /\ Base64.b64decode stored = Return content
    /\ load_file fs file_path
       = Return {| filename := path_name file_path;
                   mime_type := default "application/octet-stream"
                                        (guess_type file_path);
                   data := stored;
                   size := Z.of_nat (length content);
                   path := path_absolute file_path |}.
Proof.
  intros Hnode.
  destruct (b64decode_b64encode content) as (stored & Hdec & Hback).
  exists stored. split; [exact Hdec|]. split; [exact Hback|].
  unfold load_file, path_exists, open_read. rewrite Hnode.
  rewrite bool_decide_eq_true_2 by eauto. cbn. rewrite Hdec. cbn.
  now destruct (guess_type file_path).
Qed.

Lemma decoded_text_stored f content :
  Base64.b64decode (data f) = Return content ->
  decoded_text f = Utf8.decode content.
Proof. intros Hd. unfold decoded_text. rewrite Hd. reflexivity. Qed.

(** Extra X1.  A regular file loaded by [load_file] and rendered by
    [format_file_for_prompt]: when its mime type is textual or JSON and its
    content is UTF-8, the block holds the content of the file as it is on
    disk, under the name of the file; otherwise the line gives the name,
    the mime type and the exact number of bytes of the file. *)
Theorem load_file_then_format fs file_path content :
  fs !! file_path = Some (RegularFile content) ->
  exists attachment,
    load_file fs file_path = Return attachment
    /\ (forall text,
           textual attachment ->
           Utf8.decode content = Return text ->
           format_file_for_prompt attachment
           = Return (nl +:+ "--- File: " +:+ path_name file_path +:+ " ---" +:+ nl
                        +:+ text +:+ nl
                        +:+ "--- End of " +:+ path_name file_path +:+ " ---"
                        +:+ nl))
    /\ (~ textual attachment \/ (exists e, Utf8.decode content = Raise e) ->
        format_file_for_prompt attachment
        = Return (nl +:+ "[Attached file: " +:+ path_name file_path
                     +:+ " (" +:+ default "application/octet-stream"
                                          (guess_type file_path)
                     +:+ ", " +:+ str_of_int (Z.of_nat (length content))
                     +:+ " bytes)]" +:+ nl)).
Proof.
  intros Hnode.
  destruct (load_file_regular fs file_path content Hnode)
    as (stored & _ & Hback & Hload).
  eexists. split; [exact Hload|].
  set (a := {| filename := path_name file_path;
               mime_type := default "application/octet-stream"
                                    (guess_type file_path);
               data := stored;
               size := Z.of_nat (length content);
               path := path_absolute file_path |}).
  assert (Htext : decoded_text a = Utf8.decode content)
    by (apply decoded_text_stored; exact Hback).
  split.
  - intros text Ht Hd. rewrite format_file_for_prompt_cases.
    apply textual_test in Ht. rewrite Ht, Htext, Hd. reflexivity.
  - intros Hcase. rewrite format_file_for_prompt_cases.
    destruct (startswith (mime_type a) "text/"
              || String.eqb (mime_type a) "application/json") eqn:Ht;
      [|reflexivity].
    destruct Hcase as [Hn | [e He]].
    + exfalso. apply Hn, textual_test, Ht.
    + rewrite Htext, He. reflexivity.
Qed.

(** Extra X2.  A regular file loaded by [load_file] whose guessed type is
    JSON or whose name ends in [.json], and whose name is not used: the
    extractor returns [json.loads] of the content of the file as it is on
    disk, with the name of the file, and nothing when the content is not
    UTF-8 or does not parse. *)
Theorem load_file_then_extract fs file_path content used :
  fs !! file_path = Some (RegularFile content) ->
  guess_type file_path = Some "application/json"
  \/ endswith (path_name file_path) ".json" = true ->
  path_name file_path ∉ used_set used ->
  exists attachment,
    load_file fs file_path = Return attachment
    /\ extract_json_payload [attachment] used
       = match raw ← Utf8.decode content; json_loads raw with
         | Return payload => Return (Some (payload, path_name file_path))
         | Raise _ => Return None
         end.
Proof.
  intros Hnode Hjson Hfree.
  destruct (load_file_regular fs file_path content Hnode)
    as (stored & _ & Hback & Hload).
  eexists. split; [exact Hload|].
  set (a := {| filename := path_name file_path;
               mime_type := default "application/octet-stream"
                                    (guess_type file_path);
               data := stored;
               size := Z.of_nat (length content);
               path := path_absolute file_path |}).
  cbn [extract_json_payload]. rewrite loop_step.
  assert (Hu : in_used used (filename a) = false).
  { apply not_true_iff_false. rewrite in_used_spec. exact Hfree. }
  assert (Hj : is_json a = true).
  { apply is_json_spec. destruct Hjson as [Hg | He]; [left | right; exact He].
    cbn. rewrite Hg. reflexivity. }
  rewrite Hu, Hj. cbn [orb negb].
  unfold attempt. rewrite (decoded_text_stored a content Hback).
  destruct (Utf8.decode content) as [raw|e]; [|reflexivity].
  cbn. destruct (json_loads raw); reflexivity.
Qed.

End Disk.

(** ** The extractor as a scan *)

Section Scan.
Context `{Runtime}.

(** Extra X3.  The extractor looks at the set of used filenames only
    through the names of the attachments: two sets that agree on them, for
    instance no set and the empty set, give the same result. *)
Theorem extract_json_payload_used_by_membership files used1 used2 :
  (forall f, f ∈ files ->
             (filename f ∈ used_set used1 <-> filename f ∈ used_set used2)) ->
  extract_json_payload files used1 = extract_json_payload files used2.
Proof.
  rewrite !extract_json_payload_unfold.
  induction files as [|g rest IH]; intros Hagree; [reflexivity|].
  rewrite !loop_step.
  assert (Hg : in_used used1 (filename g) = in_used used2 (filename g)).
  { apply eq_true_iff_eq. rewrite !in_used_spec. apply Hagree. left. }
  rewrite Hg, IH; [reflexivity|].
  intros f Hf. apply Hagree. now right.
Qed.

(** Extra X4.  Over a concatenation the extractor returns what it finds in
    the first list and otherwise what it finds in the second: attaching
    more files never changes a payload already found. *)
Theorem extract_json_payload_app files more used :
  extract_json_payload (files ++ more) used
  = match extract_json_payload files used with
    | Return (Some found) => Return (Some found)
    | _ => extract_json_payload more used
    end.
Proof.
  rewrite !extract_json_payload_unfold.
  induction files as [|g rest IH]; [reflexivity|].
  cbn [app]. rewrite !loop_step.
  destruct (in_used used (filename g) || negb (is_json g)); [exact IH|].
  destruct (attempt g) as [r|e] eqn:Hatt; [|exact IH].
  apply attempt_returns in Hatt as (c & raw & p & _ & _ & _ & ->).
  reflexivity.
Qed.

(** Extra X5.  Attachments that are not JSON candidates, or whose name is
    used, play no role: removing them from the list does not change what
    the extractor returns. *)
Theorem extract_json_payload_candidates files used :
  extract_json_payload files used
  = extract_json_payload
      (List.filter (fun f => is_json f && negb (in_used used (filename f))) files)
      used.
Proof.
  rewrite !extract_json_payload_unfold.
  induction files as [|g rest IH]; [reflexivity|].
  cbn [List.filter]. rewrite loop_step.
  destruct (is_json g) eqn:Hj, (in_used used (filename g)) eqn:Hu;
    cbn [andb negb orb]; try exact IH.
  rewrite loop_step, Hj, Hu. cbn [andb negb orb]. now rewrite IH.
Qed.

End Scan.

(** ** The composer over a concatenation *)

Lemma str_app_assoc (a b c : string) : (a +:+ b) +:+ c = a +:+ (b +:+ c).
Proof.
  induction a as [|x a IH]; [reflexivity|].
  change (String x ((a +:+ b) +:+ c) = String x (a +:+ (b +:+ c))).
  now rewrite IH.
Qed.

Lemma join_app sep (xs ys : list string) :
  xs <> [] -> ys <> [] ->
  join sep (xs ++ ys) = join sep xs +:+ sep +:+ join sep ys.
Proof.
  intros Hx Hy. induction xs as [|x [|x' xs] IH]; [contradiction| |].
  - destruct ys; [contradiction|]. reflexivity.
  - change (join sep ((x :: x' :: xs) ++ ys))
      with (x +:+ sep +:+ join sep ((x' :: xs) ++ ys)).
    rewrite IH by discriminate.
    change (join sep (x :: x' :: xs)) with (x +:+ sep +:+ join sep (x' :: xs)).
    now rewrite !str_app_assoc.
Qed.

Lemma mapM_app_return {A B} (f : A -> outcome B) l1 l2 :
  forall b1 b2,
    mapM f l1 = Return b1 -> mapM f l2 = Return b2 ->
    mapM f (l1 ++ l2) = Return (b1 ++ b2).
Proof.
  induction l1 as [|x l1 IH]; intros b1 b2 H1 H2.
  - injection H1 as <-. exact H2.
  - cbn in H1 |- *. destruct (f x) as [y|e]; [|discriminate]. cbn in H1 |- *.
    destruct (mapM f l1) as [k|e]; [|discriminate]. cbn in H1.
    injection H1 as <-. rewrite (IH k b2 eq_refl H2). reflexivity.
Qed.

(** Extra X6.  Composing a prompt over a concatenation of attachments is
    composing over the second list, then over the first with that prompt
    as the text. *)
Theorem build_prompt_with_files_app prompt files more :
  build_prompt_with_files prompt (files ++ more)
  = (rest ← build_prompt_with_files prompt more;
     build_prompt_with_files rest files).
Proof.
  destruct (mapM_format files) as (b1 & Hm1 & Hf1).
  destruct (mapM_format more) as (b2 & Hm2 & Hf2).
  pose proof (mapM_app_return _ _ _ _ _ Hm1 Hm2) as Happ.
  apply Forall2_length in Hf1, Hf2.
  destruct more as [|m more].
  { rewrite app_nil_r. reflexivity. }
  destruct files as [|f files]; cbn [app].
  { destruct (build_prompt_with_files prompt (m :: more)); reflexivity. }
  unfold build_prompt_with_files.
  change (f :: files ++ m :: more) with ((f :: files) ++ m :: more).
  rewrite Happ, Hm2. cbn [mbind outcome_bind mret outcome_ret].
  rewrite Hm1. cbn [mbind outcome_bind mret outcome_ret].
  rewrite join_app.
  - now rewrite !str_app_assoc.
  - destruct b1; discriminate.
  - destruct b2; discriminate.
Qed.

(** ** What the orchestrator sends *)

Section Requests.
Context `{Runtime}.

Lemma listing_requests items : forallb is_request (listing items) = true.
Proof. induction items as [|item rest IH]; [reflexivity | exact IH]. Qed.

Lemma enumerate_tools_requests h r h1 :
  enumerate_tools h = (r, h1) ->
  exists requests,
    trace h1 = trace h ++ requests /\ forallb is_request requests = true.
Proof.
  intros He.
  destruct (sessions (client h)) as [|item rest] eqn:Hs.
  - destruct (configured (client h)) as [ss|e] eqn:Hc.
    + destruct (enumerate_tools_established h ss Hs Hc)
        as (h2 & He2 & _ & _ & Htr & _).
      rewrite He in He2. injection He2 as -> ->.
      exists (CreateAllSessions :: listing ss). split; [exact Htr|].
      apply listing_requests.
    + rewrite (enumerate_tools_refused h e Hs Hc) in He.
      injection He as <- <-. exists [CreateAllSessions]. split; reflexivity.
  - destruct (enumerate_tools_active h) as (h2 & He2 & _ & Htr & _).
    { rewrite Hs. discriminate. }
    rewrite He in He2. injection He2 as -> ->.
    exists (listing (sessions (client h))). split; [exact Htr|].
    apply listing_requests.
Qed.

Lemma after_call_trace server_name tool_name payload fn h :
  trace (after_call server_name tool_name payload fn h)
  = trace h ++ [CallTool server_name tool_name payload;
                Print (auto_notice server_name tool_name fn)].
Proof.
  unfold after_call. cbn.
  destruct (auto_pass_used h) eqn:Hu; cbn; rewrite ?Hu;
    now rewrite <- app_assoc.
Qed.

(** Extra X7.  What [maybe_auto_call_tool] adds to the trace is a run of
    enumerator requests followed by at most one tool call.  When it returns
    [None] no tool is called and nothing is printed; when it raises, at
    most the call was sent; when it returns a result, the call, with the
    extracted payload, is followed by the notice naming the server, the
    tool and the file. *)
Theorem maybe_auto_call_tool_sends h r h' :
  maybe_auto_call_tool h = (r, h') ->
  exists requests calls,
    trace h' = trace h ++ requests ++ calls
    /\ forallb is_request requests = true
    /\ (r = Return None -> calls = [])
    /\ (forall e, r = Raise e ->
          calls = []
          \/ exists server_name tool_name payload fn,
               extract_json_payload (attached_files h) (auto_pass_used h)
               = Return (Some (payload, fn))
               /\ calls = [CallTool server_name tool_name payload])
    /\ (forall out, r = Return (Some out) ->
          exists server_name tool_name payload fn,
            extract_json_payload (attached_files h) (auto_pass_used h)
            = Return (Some (payload, fn))
            /\ calls = [CallTool server_name tool_name payload;
                        Print (auto_notice server_name tool_name fn)]).
Proof.
  rewrite maybe_auto_call_tool_unfold.
  destruct (extract_json_payload (attached_files h) (auto_pass_used h))
    as [[[payload fn]|]|e] eqn:Hx.
  2,3: intros [= <- <-]; exists [], []; rewrite !app_nil_r;
       split_and!; auto; try discriminate.
  destruct (enumerate_tools h) as [r1 h1] eqn:He.
  apply enumerate_tools_requests in He as (requests & Htr & Hreq).
  assert (Hquiet : forall r0, (forall out, r0 <> Return (Some out)) ->
            (r0, h1) = (r, h') ->
            exists requests0 calls,
              trace h' = trace h ++ requests0 ++ calls
              /\ forallb is_request requests0 = true
              /\ (r = Return None -> calls = [])
              /\ (forall e, r = Raise e ->
                    calls = []
                    \/ exists server_name tool_name payload0 fn0,
                         Return (Some (payload, fn))
                         = Return (Some (payload0, fn0))
                         /\ calls = [CallTool server_name tool_name payload0])
              /\ (forall out, r = Return (Some out) ->
                    exists server_name tool_name payload0 fn0,
                      Return (Some (payload, fn)) = Return (Some (payload0, fn0))
                      /\ calls = [CallTool server_name tool_name payload0;
                                  Print (auto_notice server_name tool_name fn0)])).
  { intros r0 Hr0 [= <- <-]. exists requests, []. rewrite app_nil_r.
    split_and!; auto. intros out Hout. now contradiction (Hr0 out). }
  destruct r1 as [tools|e]; [|apply Hquiet; discriminate].
  destruct tools as [|[[server_name session] tool] [|second rest]];
    try (apply Hquiet; discriminate).
  destruct (payload_matches_schema (default [] (inputSchema tool)) payload);
    [|apply Hquiet; discriminate].
  destruct (call_tool session (name tool) payload) as [result|e].
  - destruct (format_tool_result_returns result) as [formatted Hfmt].
    rewrite Hfmt. cbn. intros [= <- <-].
    exists requests,
      [CallTool server_name (name tool) payload;
       Print (auto_notice server_name (name tool) fn)].
    rewrite after_call_trace, Htr, <- app_assoc.
    split_and!; auto; try discriminate.
    intros out _. exists server_name, (name tool), payload, fn. auto.
  - intros [= <- <-].
    exists requests, [CallTool server_name (name tool) payload].
    cbn. rewrite Htr, <- app_assoc.
    split_and!; auto; try discriminate.
    intros e' _. right. exists server_name, (name tool), payload, fn. auto.
Qed.

(** A larger set of used filenames makes no attachment usable. *)
Lemma unusable_mono used used' f :
  used_set used ⊆ used_set used' -> unusable used f -> unusable used' f.
Proof.
  intros Hsub Hun payload (Hfree & Hrest). apply (Hun payload).
  split; [|exact Hrest]. intros Hin. apply Hfree, Hsub, Hin.
Qed.

(** Extra X8.  After [maybe_auto_call_tool] has returned a result with a
    set of used filenames, the filename of the payload is in the set, the
    attachments are as before and the extractor never returns that
    filename again.  When every attachment either bears that name or was
    unusable, the next call returns [None] on an unchanged heap. *)
Theorem maybe_auto_call_tool_consumes h out h' s :
  maybe_auto_call_tool h = (Return (Some out), h') ->
  auto_pass_used h = Some s ->
  exists payload fn,
    extract_json_payload (attached_files h) (auto_pass_used h)
    = Return (Some (payload, fn))
    /\ attached_files h' = attached_files h
    /\ auto_pass_used h' = Some ({[fn]} ∪ s)
    /\ (forall again,
           extract_json_payload (attached_files h') (auto_pass_used h')
           <> Return (Some (again, fn)))
    /\ (Forall (fun f => filename f = fn \/ unusable (Some s) f)
               (attached_files h) ->
        maybe_auto_call_tool h' = (Return None, h')).
Proof.
  intros Hm Hs.
  apply maybe_auto_call_tool_effect in Hm
    as [Hfiles [[_ Hno] | (payload & fn & out' & Hx & _ & Hu)]].
  { now contradiction (Hno out). }
  rewrite Hs in Hu. cbn in Hu.
  exists payload, fn. split_and!; auto.
  - intros again Hagain. rewrite extract_json_payload_unfold in Hagain.
    apply loop_found in Hagain as (b & f & a & _ & -> & (Hfree & _) & _).
    apply Hfree. rewrite Hu. unfold used_set. cbn. set_solver.
  - intros Hall.
    assert (Hnone : extract_json_payload (attached_files h') (auto_pass_used h')
                    = Return None).
    { rewrite extract_json_payload_unfold. apply loop_none.
      rewrite Hfiles, Hu. eapply Forall_impl; [exact Hall|].
      intros f [Hname | Hun].
      - intros p (Hfree & _). apply Hfree. rewrite Hname.
        unfold used_set. cbn. set_solver.
      - eapply unusable_mono; [|exact Hun]. unfold used_set. cbn. set_solver. }
    rewrite maybe_auto_call_tool_unfold, Hnone. reflexivity.
Qed.

End Requests.

(** ** The commands of the interactive loop *)

Section Commands.
Context `{Runtime}.

Lemma print_all_trace lines :
  forall h,
    trace (print_all lines h) = trace h ++ map Print lines
    /\ client (print_all lines h) = client h.
Proof.
  unfold print_all.
  induction lines as [|l lines IH]; intros h.
  - cbn. now rewrite app_nil_r.
  - cbn. destruct (IH (emit (Print l) h)) as [-> ->]. cbn.
    now rewrite <- app_assoc.
Qed.

(** Extra X9.  An empty line, [quit], [exit], [/attach path], [/files],
    [/clear] and [/help] are handled by the loop alone: the client and the
    used filenames are as before and only lines are printed.  The empty
    line, [/files] and [/help] also leave the attachments as they are. *)
Theorem interactive_commands_are_local fs raw h :
  is_command (strip raw) ->
  let h' := (interactive_step fs (Line raw) h).2 in
  client h' = client h
  /\ auto_pass_used h' = auto_pass_used h
  /\ (exists printed, trace h' = trace h ++ map Print printed)
  /\ (strip raw = "/files" \/ strip raw = "/help" \/ strip raw = EmptyString ->
      attached_files h' = attached_files h).
Proof.
  intros Hcmd. unfold interactive_step.
  destruct (truthy_str (strip raw)) eqn:Htruthy; cbn [negb].
  2: { split_and!; auto. exists []. cbn. now rewrite app_nil_r. }
  destruct (String.eqb (lower (strip raw)) "quit"
            || String.eqb (lower (strip raw)) "exit") eqn:Hquit.
  { cbn [snd]. split_and!; auto. now exists ["Goodbye!"]. }
  destruct (startswith (strip raw) "/attach ") eqn:Hattach.
  { destruct (load_file fs (strip (drop_prefix 8 (strip raw)))) as [f|e];
      cbn [snd]; split_and!; auto;
      try (now eexists [_]);
      intros [Heq | [Heq | Heq]]; rewrite Heq in Hattach; discriminate. }
  destruct (String.eqb (strip raw) "/files") eqn:Hfiles.
  { destruct (attached_files h) eqn:Hatt; cbn [snd].
    - split_and!; auto; try (now exists ["No files attached"]).
    - destruct (print_all_trace ("Attached files:" :: files_lines 1 (f :: l)) h)
        as [Htr Hcl].
      destruct (print_all_used ("Attached files:" :: files_lines 1 (f :: l)) h)
        as [Hu Hf].
      split_and!; eauto. intros _. now rewrite Hf, Hatt. }
  destruct (String.eqb (strip raw) "/clear") eqn:Hclear.
  { cbn [snd]. split_and!; auto.
    - now exists ["Cleared all attached files"].
    - intros [Heq | [Heq | Heq]]; rewrite Heq in Hclear; discriminate. }
  destruct (String.eqb (strip raw) "/help") eqn:Hhelp.
  { cbn [snd]. destruct (print_all_trace help_lines h) as [Htr Hcl].
    destruct (print_all_used help_lines h) as [Hu Hf].
    split_and!; eauto. }
  exfalso.
  apply orb_false_iff in Hquit as [Hq He].
  destruct Hcmd as [Hc | [Hc | [Hc | [Hc | [Hc | [Hc | Hc]]]]]].
  - rewrite Hc in Htruthy. discriminate.
  - rewrite Hc in Hq. discriminate.
  - rewrite Hc in He. discriminate.
  - congruence.
  - rewrite Hc in Hfiles. discriminate.
  - rewrite Hc in Hclear. discriminate.
  - rewrite Hc in Hhelp. discriminate.
Qed.

Lemma attach_is_no_keyword s :
  startswith s "/attach " = true ->
  truthy_str s = true
  /\ String.eqb (lower s) "quit" || String.eqb (lower s) "exit" = false.
Proof.
  unfold startswith. destruct s as [|c s]; [discriminate|].
  cbn [String.prefix]. destruct (Ascii.ascii_dec _ c) as [<-|]; [|discriminate].
  intros _. split; reflexivity.
Qed.

(** Extra X10.  [/attach path] never stops the loop.  When the path is a
    regular file, the loaded file is appended after the attachments already
    there and its description is printed; when the path is missing or is
    a directory, the attachments are unchanged and the error is printed. *)
Theorem interactive_attach fs raw h :
  startswith (strip raw) "/attach " = true ->
  let file_path := strip (drop_prefix 8 (strip raw)) in
  let st := (interactive_step fs (Line raw) h).1 in
  let h' := (interactive_step fs (Line raw) h).2 in
  st = Continue
  /\ (forall content,
         fs !! file_path = Some (RegularFile content) ->
         exists file_info,
           load_file fs file_path = Return file_info
           /\ attached_files h' = attached_files h ++ [file_info]
           /\ trace h' = trace h ++ [Print ("Attached: " +:+ describe file_info)])
  /\ (fs !! file_path = None \/ fs !! file_path = Some Directory ->
      attached_files h' = attached_files h
      /\ exists e, load_file fs file_path = Raise e
                   /\ trace h' = trace h ++ [Print ("Error: " +:+ exn_message e)]).
Proof.
  intros Hattach file_path st h'. subst st h'.
  destruct (attach_is_no_keyword _ Hattach) as [Htruthy Hkey].
  unfold interactive_step. rewrite Htruthy, Hkey, Hattach. cbn [negb].
  fold file_path.
  split_and!.
  - destruct (load_file fs file_path); reflexivity.
  - intros content Hnode.
    destruct (load_file_regular fs file_path content Hnode)
      as (stored & _ & _ & Hload).
    rewrite Hload. eexists. split_and!; reflexivity.
  - intros Hnode. unfold load_file, path_exists, open_read.
    destruct Hnode as [-> | ->].
    + rewrite bool_decide_eq_false_2 by (intros [? [=]]). cbn.
      split; [reflexivity|]. eexists. split; reflexivity.
    + rewrite bool_decide_eq_true_2 by eauto. cbn.
      split; [reflexivity|]. eexists. split; reflexivity.
Qed.

(** The loop over a concatenation of inputs. *)
Lemma interactive_mode_app fs inputs more h :
  interactive_mode fs (inputs ++ more) h
  = match interactive_mode fs inputs h with
    | (Continue, h') => interactive_mode fs more h'
    | stopped => stopped
    end.
Proof.
  revert h. induction inputs as [|inp rest IH]; intros h; [reflexivity|].
  cbn [app interactive_mode].
  destruct (interactive_step fs inp h) as [[| |e] h1]; [apply IH | |];
    reflexivity.
Qed.

End Commands.

(** ** A single-prompt run *)

Section SinglePromptRun.
Context `{Runtime} `{Process}.

Lemma run_agent_unfold env prompt provider files :
  run_agent env prompt provider files
  = let r := run_agent_try env prompt provider
               (single_shot_heap (getenv env "MCP_SERVER_URL" default_url)
                                 (default [] files)) in
    (r.1.1, teardown r.1.2, r.2 ++ [DisconnectAll]).
Proof.
  unfold run_agent, single_shot_heap.
  destruct (run_agent_try _ _ _ _) as [[result c] log]. reflexivity.
Qed.

(** The orchestrator alone never runs the agent. *)
Lemma maybe_auto_call_tool_no_agent h r h1 p :
  trace h = [] ->
  maybe_auto_call_tool h = (r, h1) ->
  ~ In (AgentRun p) (trace h1).
Proof.
  intros Hempty. rewrite maybe_auto_call_tool_unfold.
  destruct (extract_json_payload (attached_files h) (auto_pass_used h))
    as [[[payload fn]|]|e].
  2,3: intros [= <- <-]; rewrite Hempty; intros [].
  destruct (enumerate_tools h) as [r1 h2] eqn:He.
  apply enumerate_tools_requests in He as (requests & Htr & Hreq).
  rewrite Hempty in Htr. cbn in Htr.
  assert (Hquiet : ~ In (AgentRun p) (trace h2)).
  { rewrite Htr. intros Hin. rewrite forallb_forall in Hreq.
    specialize (Hreq _ Hin). discriminate. }
  destruct r1 as [tools|e]; [|intros [= <- <-]; exact Hquiet].
  destruct tools as [|[[server_name session] tool] [|second rest]];
    try (intros [= <- <-]; exact Hquiet).
  destruct (payload_matches_schema (default [] (inputSchema tool)) payload);
    [|intros [= <- <-]; exact Hquiet].
  destruct (call_tool session (name tool) payload) as [result|e];
    intros [= <- <-].
  - rewrite after_call_trace, in_app_iff.
    intros [Hin | [[=] | [[=] | []]]]. now apply Hquiet.
  - cbn. rewrite in_app_iff. intros [Hin | [[=] | []]]. now apply Hquiet.
Qed.

Lemma in_map_core e l : In (Core e) (map Core l) <-> In e l.
Proof.
  rewrite in_map_iff. split.
  - intros (x & [= ->] & Hx). exact Hx.
  - intros He. eauto.
Qed.

Lemma not_in_map_core a l :
  (forall e, a <> Core e) -> ~ In a (map Core l).
Proof.
  intros Ha Hin. apply in_map_iff in Hin as (x & <- & _). now apply (Ha x).
Qed.

(** Extra X12.  In [run_agent], a result of the orchestrator is returned
    as it is, after the teardown, and neither a model client nor the agent
    is involved.  A model client is constructed only when the orchestrator
    has returned [None], for the provider asked; the agent is run only
    then, after the model client was constructed, on the prompt composed
    from the text and the files. *)
Theorem run_agent_fast_path env prompt provider files :
  let h := single_shot_heap (getenv env "MCP_SERVER_URL" default_url)
                            (default [] files) in
  let log := (run_agent env prompt provider files).2 in
  (forall out h1,
      maybe_auto_call_tool h = (Return (Some out), h1) ->
      run_agent env prompt provider files
      = (Return out, teardown (client h1),
         map Core (trace h1) ++ [DisconnectAll]))
  /\ (forall spec,
         In (MakeLlm spec) log ->
         spec = llm_request env provider
         /\ (maybe_auto_call_tool h).1 = Return None)
  /\ (forall full_prompt,
         In (Core (AgentRun full_prompt)) log ->
         (maybe_auto_call_tool h).1 = Return None
         /\ returns (get_llm env provider)
         /\ build_prompt_with_files prompt (default [] files)
            = Return full_prompt).
Proof.
  intros h log. subst log. rewrite run_agent_unfold. fold h.
  unfold run_agent_try.
  destruct (maybe_auto_call_tool h) as [[[out|]|e] h1] eqn:Hm; cbn [fst snd].
  - split_and!.
    + intros out' h1' [= <- <-]. reflexivity.
    + intros spec Hin. apply in_app_iff in Hin as [Hin | [[=] | []]].
      exfalso. revert Hin. apply not_in_map_core. discriminate.
    + intros p Hin. apply in_app_iff in Hin as [Hin | [[=] | []]].
      apply in_map_core in Hin. exfalso.
      eapply maybe_auto_call_tool_no_agent; [| exact Hm | exact Hin].
      reflexivity.
  - split; [discriminate|].
    assert (Hquiet : forall p, ~ In (Core (AgentRun p)) (map Core (trace h1))).
    { intros p Hin. apply in_map_core in Hin.
      eapply maybe_auto_call_tool_no_agent; [| exact Hm | exact Hin].
      reflexivity. }
    destruct (get_llm env provider) as [llm|e] eqn:Hllm; cbn [fst snd].
    + destruct (build_prompt_with_files prompt (attached_files h))
        as [full_prompt|e] eqn:Hb; cbn [fst snd].
      * destruct (agent_run full_prompt (client h1)) as [result c].
        cbn [fst snd]. split.
        -- intros spec Hin. rewrite !in_app_iff in Hin.
           destruct Hin as [[[Hin | [[= <-] | []]] | [[=] | []]] | [[=] | []]];
             [|auto].
           exfalso. revert Hin. apply not_in_map_core. discriminate.
        -- intros p Hin. rewrite !in_app_iff in Hin.
           destruct Hin as [[[Hin | [[=] | []]] | [[= <-] | []]] | [[=] | []]].
           ++ now contradiction (Hquiet p).
           ++ split_and!; [reflexivity | now exists llm | exact Hb].
      * split.
        -- intros spec Hin. rewrite !in_app_iff in Hin.
           destruct Hin as [[Hin | [[= <-] | []]] | [[=] | []]]; [|auto].
           exfalso. revert Hin. apply not_in_map_core. discriminate.
        -- intros p Hin. rewrite !in_app_iff in Hin.
           destruct Hin as [[Hin | [[=] | []]] | [[=] | []]].
           now contradiction (Hquiet p).
    + split.
      * intros spec Hin. rewrite !in_app_iff in Hin.
        destruct Hin as [[Hin | [[= <-] | []]] | [[=] | []]]; [|auto].
        exfalso. revert Hin. apply not_in_map_core. discriminate.
      * intros p Hin. rewrite !in_app_iff in Hin.
        destruct Hin as [[Hin | [[=] | []]] | [[=] | []]].
        now contradiction (Hquiet p).
  - split_and!.
    + discriminate.
    + intros spec Hin. apply in_app_iff in Hin as [Hin | [[=] | []]].
      exfalso. revert Hin. apply not_in_map_core. discriminate.
    + intros p Hin. apply in_app_iff in Hin as [Hin | [[=] | []]].
      apply in_map_core in Hin. exfalso.
      eapply maybe_auto_call_tool_no_agent; [| exact Hm | exact Hin].
      reflexivity.
Qed.

Lemma run_agent_try_no_disconnect env prompt provider h :
  ~ In DisconnectAll (run_agent_try env prompt provider h).2.
Proof.
  unfold run_agent_try.
  assert (Hcore : forall l, ~ In DisconnectAll (map Core l))
    by (intros l; apply not_in_map_core; discriminate).
  destruct (maybe_auto_call_tool h) as [[[out|]|e] h1]; cbn [snd];
    try apply Hcore.
  destruct (get_llm env provider) as [llm|e]; cbn [snd].
  - destruct (build_prompt_with_files prompt (attached_files h)) as [p|e];
      cbn [snd].
    + destruct (agent_run p (client h1)) as [result c]. cbn [snd].
      rewrite !in_app_iff. intros [[Hin | [[=] | []]] | [[=] | []]].
      now apply (Hcore (trace h1)).
    + rewrite in_app_iff. intros [Hin | [[=] | []]].
      now apply (Hcore (trace h1)).
  - rewrite in_app_iff. intros [Hin | [[=] | []]]. now apply (Hcore (trace h1)).
Qed.

(** Extra X13.  Every run of [run_agent] ends with one teardown, the last
    action of the run, also when the tool call of the fast path, the
    construction of the model client or the agent raises: the exception is
    the result of the run and the client has been disconnected. *)
Theorem run_agent_always_disconnects env prompt provider files :
  let h := single_shot_heap (getenv env "MCP_SERVER_URL" default_url)
                            (default [] files) in
  (exists before,
      (run_agent env prompt provider files).2 = before ++ [DisconnectAll]
      /\ ~ In DisconnectAll before)
  /\ (forall e h1,
         maybe_auto_call_tool h = (Raise e, h1) ->
         run_agent env prompt provider files
         = (Raise e, teardown (client h1),
            map Core (trace h1) ++ [DisconnectAll]))
  /\ (forall e h1,
         maybe_auto_call_tool h = (Return None, h1) ->
         get_llm env provider = Raise e ->
         run_agent env prompt provider files
         = (Raise e, teardown (client h1),
            map Core (trace h1) ++ [MakeLlm (llm_request env provider)]
                ++ [DisconnectAll]))
  /\ (forall e h1 llm full_prompt c,
         maybe_auto_call_tool h = (Return None, h1) ->
         get_llm env provider = Return llm ->
         build_prompt_with_files prompt (default [] files) = Return full_prompt ->
         agent_run full_prompt (client h1) = (Raise e, c) ->
         run_agent env prompt provider files
         = (Raise e, teardown c,
            map Core (trace h1)
                ++ [MakeLlm (llm_request env provider);
                    Core (AgentRun full_prompt)]
                ++ [DisconnectAll])).
Proof.
  intros h. rewrite run_agent_unfold. fold h. cbn zeta.
  split_and!.
  - exists (run_agent_try env prompt provider h).2. split; [reflexivity|].
    apply run_agent_try_no_disconnect.
  - intros e h1 Hm. unfold run_agent_try. rewrite Hm. reflexivity.
  - intros e h1 Hm Hllm. unfold run_agent_try. rewrite Hm, Hllm. cbn [fst snd].
    now rewrite <- app_assoc.
  - intros e h1 llm full_prompt c Hm Hllm Hb Hrun.
    unfold run_agent_try. rewrite Hm, Hllm.
    change (attached_files h) with (default [] files). rewrite Hb, Hrun.
    cbn [fst snd]. now rewrite <- !app_assoc.
Qed.

End SinglePromptRun.

(** ** The interactive session *)

Section Session.
Context `{Runtime} `{Process}.

(** Extra X14.  [interactive_mode] constructs the model client before it
    reads any input; when that fails, the exception ends the session, no
    input is processed and there is no teardown.  Otherwise the session
    runs the loop, and the teardown happens exactly when the loop has
    stopped, as the last action. *)
Theorem interactive_session_lifecycle env fs provider skill_path attached used
        inputs :
  let h0 := session_heap (from_dict (session_config env skill_path))
                         attached used in
  let run := interactive_session env fs provider skill_path attached used inputs in
  (forall e,
      get_llm env provider = Raise e ->
      run = (Propagate e, h0, session_start env provider))
  /\ (returns (get_llm env provider) ->
      exists h1,
        interactive_mode fs inputs h0 = (run.1.1, h1)
        /\ (run.1.1 = Continue ->
            run.1.2 = h1
            /\ run.2 = session_start env provider ++ map Core (trace h1))
        /\ (run.1.1 <> Continue ->
            run.1.2 = set_client (teardown (client h1)) h1
            /\ run.2 = session_start env provider ++ map Core (trace h1)
                         ++ [DisconnectAll]))
  /\ (In DisconnectAll run.2 <->
      returns (get_llm env provider)
      /\ (interactive_mode fs inputs h0).1 <> Continue).
Proof.
  intros h0 run. subst run. unfold interactive_session.
  fold (session_heap (from_dict (session_config env skill_path)) attached used).
  fold h0. fold (session_start env provider).
  assert (Hstart : ~ In DisconnectAll (session_start env provider)).
  { unfold session_start. rewrite in_app_iff.
    intros [Hin | [[=] | []]].
    apply in_map_iff in Hin as (l & [=] & _). }
  assert (Hcore : forall l, ~ In DisconnectAll (map Core l))
    by (intros l; apply not_in_map_core; discriminate).
  destruct (get_llm env provider) as [llm|e] eqn:Hllm.
  - destruct (interactive_mode fs inputs h0) as [st h1] eqn:Hloop.
    split_and!.
    + discriminate.
    + intros _. exists h1. destruct st; cbn [fst snd].
      * split_and!; [reflexivity | auto | now intros []].
      * split_and!; [reflexivity | discriminate |].
        intros _. now rewrite <- app_assoc.
      * split_and!; [reflexivity | discriminate |].
        intros _. now rewrite <- app_assoc.
    + cbn [fst]. destruct st; cbn [snd]; rewrite ?in_app_iff.
      * split.
        -- intros [Hin | Hin]; [now contradiction Hstart|].
           now contradiction (Hcore (trace h1)).
        -- intros [_ Hne]. now contradiction Hne.
      * split; [|intros _; right; now left].
        intros _. split; [now exists llm | discriminate].
      * split; [|intros _; right; now left].
        intros _. split; [now exists llm | discriminate].
  - split_and!.
    + intros e' [= <-]. reflexivity.
    + intros [llm [=]].
    + cbn [snd]. split.
      * intros Hin. now contradiction Hstart.
      * intros [[llm [=]] _].
Qed.

End Session.

(** ** [main] *)

Section Main.
Context `{Runtime} `{Process}.

Lemma preload_loaded fs paths :
  forall files acc,
    all_load fs paths files ->
    preload fs paths acc = (Some (acc ++ files), map loaded_line files).
Proof.
  induction paths as [|p paths IH]; intros files acc Hall.
  - apply Forall2_nil_inv_l in Hall as ->. cbn. now rewrite app_nil_r.
  - apply Forall2_cons_inv_l in Hall as (f & files' & Hf & Hall & ->).
    cbn [preload]. rewrite Hf, (IH files' (acc ++ [f]) Hall).
    now rewrite <- app_assoc.
Qed.

Lemma preload_failed fs before :
  forall files acc p after e,
    all_load fs before files ->
    load_file fs p = Raise e ->
    preload fs (before ++ p :: after) acc
    = (None, map loaded_line files
               ++ ["Error loading " +:+ p +:+ ": " +:+ exn_message e]).
Proof.
  induction before as [|b before IH]; intros files acc p after e Hall Hp.
  - apply Forall2_nil_inv_l in Hall as ->. cbn. now rewrite Hp.
  - apply Forall2_cons_inv_l in Hall as (f & files' & Hf & Hall & ->).
    cbn [app preload]. rewrite Hf, (IH files' (acc ++ [f]) p after e Hall Hp).
    reflexivity.
Qed.

Lemma load_or_first_failure fs paths :
  (exists files, all_load fs paths files)
  \/ (exists before p after files e,
         paths = before ++ p :: after
         /\ all_load fs before files
         /\ load_file fs p = Raise e).
Proof.
  induction paths as [|p paths IH].
  - left. exists []. constructor.
  - destruct (load_file fs p) as [f|e] eqn:Hp.
    + destruct IH as [[files Hall] | (before & q & after & files & e & -> & Hall & Hq)].
      * left. exists (f :: files). now constructor.
      * right. exists (p :: before), q, after, (f :: files), e.
        split_and!; [reflexivity | now constructor | exact Hq].
    + right. exists [], p, paths, [], e. split_and!; [reflexivity | constructor | exact Hp].
Qed.

Lemma all_load_each fs paths files p :
  all_load fs paths files -> In p paths -> returns (load_file fs p).
Proof.
  induction 1 as [|q f paths files Hq _ IH]; intros Hin; [destruct Hin|].
  destruct Hin as [<- | Hin]; [now exists f | now apply IH].
Qed.

(** Extra X15.  The preloading of [main] is all or nothing: when every
    path loads, the files are kept in order, one line printed for each;
    at the first path that fails, the error is printed after the lines of
    the files before it, no list is produced and the later paths play no
    role.  It fails exactly when some path does not load. *)
Theorem preload_all_or_nothing fs paths acc :
  (forall files,
      all_load fs paths files ->
      preload fs paths acc = (Some (acc ++ files), map loaded_line files))
  /\ (forall before p after files e,
         paths = before ++ p :: after ->
         all_load fs before files ->
         load_file fs p = Raise e ->
         preload fs paths acc
         = (None, map loaded_line files
                    ++ ["Error loading " +:+ p +:+ ": " +:+ exn_message e]))
  /\ ((preload fs paths acc).1 = None <->
      exists p, In p paths /\ ~ returns (load_file fs p)).
Proof.
  split_and!.
  - intros files Hall. now apply preload_loaded.
  - intros before p after files e -> Hall Hp. now apply preload_failed.
  - destruct (load_or_first_failure fs paths)
      as [[files Hall] | (before & p & after & files & e & -> & Hall & Hp)].
    + rewrite (preload_loaded fs paths files acc Hall). cbn. split; [discriminate|].
      intros (p & Hin & Hno). exfalso. apply Hno.
      eapply all_load_each; eassumption.
    + rewrite (preload_failed fs before files acc p after e Hall Hp). cbn.
      split; [|reflexivity]. intros _. exists p. split.
      * apply in_app_iff. right. now left.
      * intros [f Hf]. congruence.
Qed.

(** Extra X16.  [main] stores the server URL of the command line in the
    environment, so that it is the URL later read from there.  It launches
    nothing when a file fails to load; it runs [run_agent] when a
    non-empty prompt is given, on the files loaded, and prints its result;
    it runs [interactive_mode] on the files loaded when the prompt is
    absent or empty. *)
Theorem main_dispatch env fs args inputs :
  let env' := <["MCP_SERVER_URL" := arg_server_url args]> env in
  let paths := default [] (arg_files args) in
  getenv env' "MCP_SERVER_URL" default_url = arg_server_url args
  /\ match (main env fs args inputs).2 with
     | Aborted => exists p, In p paths /\ ~ returns (load_file fs p)
     | SinglePrompt run =>
       exists prompt files,
         arg_prompt args = Some prompt
         /\ prompt <> EmptyString
         /\ all_load fs paths files
         /\ run = run_agent env' prompt (arg_provider args) (Some files)
         /\ (main env fs args inputs).1
            = map loaded_line files
                ++ match run.1.1 with
                   | Return result => [result]
                   | Raise _ => []
                   end
     | InteractiveMode run =>
       exists files,
         (arg_prompt args = None \/ arg_prompt args = Some EmptyString)
         /\ all_load fs paths files
         /\ run = interactive_session env' fs (arg_provider args)
                                      (arg_skill_path args) files ∅ inputs
         /\ (main env fs args inputs).1 = map loaded_line files
     end.
Proof.
  intros env' paths. split.
  { unfold getenv, env'. now rewrite lookup_insert_eq. }
  unfold main. fold env' paths.
  destruct (load_or_first_failure fs paths)
    as [[files Hall] | (before & p & after & files & e & Hpaths & Hall & Hp)].
  - rewrite (preload_loaded fs paths files [] Hall). cbn [app].
    destruct (arg_prompt args) as [prompt|] eqn:Hprompt.
    + destruct prompt as [|c prompt]; cbn [truthy_str snd fst].
      * exists files. split_and!; auto.
      * exists (String c prompt), files. split_and!; auto; discriminate.
    + cbn [snd fst]. exists files. split_and!; auto.
  - rewrite Hpaths, (preload_failed fs before files [] p after e Hall Hp).
    cbn [snd]. exists p. split.
    + apply in_app_iff. right. now left.
    + intros [f Hf]. congruence.
Qed.

End Main.

(** ** A turn of conversation *)

Section Turn.
Context `{Runtime}.

Lemma build_prompt_with_files_returns prompt files :
  returns (build_prompt_with_files prompt files).
Proof.
  destruct files as [|f files]; [now exists prompt|].
  destruct (mapM_format (f :: files)) as (blocks & Hm & _).
  unfold build_prompt_with_files. rewrite Hm. eexists. reflexivity.
Qed.

Lemma not_command_tests s :
  ~ is_command s ->
  truthy_str s = true
  /\ String.eqb (lower s) "quit" || String.eqb (lower s) "exit" = false
  /\ startswith s "/attach " = false
  /\ String.eqb s "/files" = false
  /\ String.eqb s "/clear" = false
  /\ String.eqb s "/help" = false.
Proof.
  intros Hno. unfold is_command in Hno.
  split_and!.
  - destruct s; [|reflexivity]. exfalso. apply Hno. now left.
  - apply orb_false_iff. split; apply not_true_iff_false; intros Heq;
      apply String.eqb_eq in Heq; apply Hno; auto.
  - apply not_true_iff_false. intros Heq. apply Hno. auto 10.
  - apply not_true_iff_false. intros Heq. apply String.eqb_eq in Heq.
    apply Hno. auto 10.
  - apply not_true_iff_false. intros Heq. apply String.eqb_eq in Heq.
    apply Hno. auto 10.
  - apply not_true_iff_false. intros Heq. apply String.eqb_eq in Heq.
    apply Hno. auto 10.
Qed.

(** Extra X17.  A turn that is none of the commands goes to the
    orchestrator: its exception stops the loop; its result is printed and
    the agent is not run; when it returns [None] the agent is run once, on
    the prompt composed from the input and the attachments, and the loop
    goes on with its answer printed, or stops with its exception. *)
Theorem interactive_turn fs raw h :
  ~ is_command (strip raw) ->
  (forall e h1,
      maybe_auto_call_tool h = (Raise e, h1) ->
      interactive_step fs (Line raw) h = (Propagate e, h1))
  /\ (forall out h1,
         maybe_auto_call_tool h = (Return (Some out), h1) ->
         interactive_step fs (Line raw) h = (Continue, emit (Print out) h1))
  /\ (forall h1,
         maybe_auto_call_tool h = (Return None, h1) ->
         exists full_prompt,
           build_prompt_with_files (strip raw) (attached_files h)
           = Return full_prompt
           /\ let h' := (interactive_step fs (Line raw) h).2 in
              attached_files h' = attached_files h
              /\ client h' = (agent_run full_prompt (client h1)).2
              /\ match (agent_run full_prompt (client h1)).1 with
                 | Return result =>
                   (interactive_step fs (Line raw) h).1 = Continue
                   /\ trace h' = trace h1 ++ [Print (nl +:+ "Agent: ");
                                              AgentRun full_prompt;
                                              Print result]
                 | Raise e =>
                   (interactive_step fs (Line raw) h).1 = Propagate e
                   /\ trace h' = trace h1 ++ [Print (nl +:+ "Agent: ");
                                              AgentRun full_prompt]
                 end).
Proof.
  intros Hfree.
  destruct (not_command_tests _ Hfree) as (Ht & Hq & Ha & Hf & Hc & Hh).
  unfold interactive_step. rewrite Ht, Hq, Ha, Hf, Hc, Hh. cbn [negb].
  split_and!.
  - intros e h1 ->. reflexivity.
  - intros out h1 ->. reflexivity.
  - intros h1 Hm. rewrite Hm.
    pose proof Hm as Heff.
    apply maybe_auto_call_tool_effect in Heff as [Hfiles _].
    rewrite Hfiles.
    destruct (build_prompt_with_files_returns (strip raw) (attached_files h))
      as [full_prompt Hb].
    exists full_prompt. split; [exact Hb|]. rewrite Hb. cbn [client emit].
    destruct (agent_run full_prompt (client h1)) as [[result|e] c];
      cbn; rewrite <- ?app_assoc; split_and!; auto.
Qed.

End Turn.

(** ** What stops the loop *)

Section Stops.
Context `{Runtime}.

Lemma tests_not_command s :
  truthy_str s = true ->
  String.eqb (lower s) "quit" || String.eqb (lower s) "exit" = false ->
  startswith s "/attach " = false ->
  String.eqb s "/files" = false ->
  String.eqb s "/clear" = false ->
  String.eqb s "/help" = false ->
  ~ is_command s.
Proof.
  intros Ht Hq Ha Hf Hc Hh Hcmd.
  apply orb_false_iff in Hq as [Hq He].
  destruct Hcmd as [Hs | [Hs | [Hs | [Hs | [Hs | [Hs | Hs]]]]]].
  - rewrite Hs in Ht. discriminate.
  - rewrite Hs in Hq. discriminate.
  - rewrite Hs in He. discriminate.
  - congruence.
  - rewrite Hs in Hf. discriminate.
  - rewrite Hs in Hc. discriminate.
  - rewrite Hs in Hh. discriminate.
Qed.

Lemma keyword_tests s :
  lower s = "quit" \/ lower s = "exit" ->
  truthy_str s = true
  /\ String.eqb (lower s) "quit" || String.eqb (lower s) "exit" = true.
Proof.
  intros Hk. split.
  - destruct s; [|reflexivity]. destruct Hk as [Hk | Hk]; discriminate.
  - apply orb_true_iff. destruct Hk as [-> | ->]; [left | right]; reflexivity.
Qed.

(** The status of a turn that is none of the commands. *)
Lemma free_turn_status fs raw h :
  ~ is_command (strip raw) ->
  (interactive_step fs (Line raw) h).1
  = match maybe_auto_call_tool h with
    | (Raise e, _) => Propagate e
    | (Return (Some _), _) => Continue
    | (Return None, h1) =>
      match build_prompt_with_files (strip raw) (attached_files h) with
      | Raise e => Propagate e
      | Return full_prompt =>
        match (agent_run full_prompt (client h1)).1 with
        | Raise e => Propagate e
        | Return _ => Continue
        end
      end
    end.
Proof.
  intros Hfree.
  destruct (not_command_tests _ Hfree) as (Ht & Hq & Ha & Hf & Hc & Hh).
  unfold interactive_step. rewrite Ht, Hq, Ha, Hf, Hc, Hh. cbn [negb].
  destruct (maybe_auto_call_tool h) as [[[out|]|e] h1] eqn:Hm; try reflexivity.
  apply maybe_auto_call_tool_effect in Hm as [Hfiles _]. rewrite Hfiles.
  destruct (build_prompt_with_files (strip raw) (attached_files h));
    [|reflexivity].
  cbn [client emit].
  destruct (agent_run a (client h1)) as [[result|e] c]; reflexivity.
Qed.

(** The status of a command. *)
Lemma command_status fs raw h :
  is_command (strip raw) ->
  (interactive_step fs (Line raw) h).1
  = if truthy_str (strip raw)
       && (String.eqb (lower (strip raw)) "quit"
           || String.eqb (lower (strip raw)) "exit")
    then Break else Continue.
Proof.
  intros Hcmd. unfold interactive_step.
  destruct (truthy_str (strip raw)) eqn:Ht; cbn [negb andb]; [|reflexivity].
  destruct (String.eqb (lower (strip raw)) "quit"
            || String.eqb (lower (strip raw)) "exit") eqn:Hq; [reflexivity|].
  destruct (startswith (strip raw) "/attach ") eqn:Ha.
  { destruct (load_file fs (strip (drop_prefix 8 (strip raw)))); reflexivity. }
  destruct (String.eqb (strip raw) "/files") eqn:Hf.
  { destruct (attached_files h); reflexivity. }
  destruct (String.eqb (strip raw) "/clear") eqn:Hc; [reflexivity|].
  destruct (String.eqb (strip raw) "/help") eqn:Hh; [reflexivity|].
  exfalso. eapply tests_not_command; eauto.
Qed.

Lemma is_command_dec s : is_command s \/ ~ is_command s.
Proof.
  destruct (truthy_str s) eqn:Ht.
  2: { left. left. now destruct s. }
  destruct (String.eqb (lower s) "quit" || String.eqb (lower s) "exit") eqn:Hq.
  { left. apply orb_true_iff in Hq as [Hq | Hq]; apply String.eqb_eq in Hq;
      unfold is_command; auto. }
  destruct (startswith s "/attach ") eqn:Ha; [left; unfold is_command; auto 10|].
  destruct (String.eqb s "/files") eqn:Hf.
  { apply String.eqb_eq in Hf. left. unfold is_command. auto 10. }
  destruct (String.eqb s "/clear") eqn:Hc.
  { apply String.eqb_eq in Hc. left. unfold is_command. auto 10. }
  destruct (String.eqb s "/help") eqn:Hh.
  { apply String.eqb_eq in Hh. left. unfold is_command. auto 10. }
  right. now apply tests_not_command.
Qed.

Lemma interactive_mode_stopped fs inputs :
  forall h st h',
    interactive_mode fs inputs h = (st, h') ->
    st <> Continue ->
    exists before inp after h1,
      inputs = before ++ inp :: after
      /\ interactive_mode fs before h = (Continue, h1)
      /\ interactive_step fs inp h1 = (st, h').
Proof.
  induction inputs as [|inp rest IH]; intros h st h' Hrun Hstop.
  - injection Hrun as <- <-. now contradiction Hstop.
  - cbn [interactive_mode] in Hrun.
    destruct (interactive_step fs inp h) as [[| |e] h1] eqn:Hstep.
    + destruct (IH h1 st h' Hrun Hstop)
        as (before & inp' & after & h2 & -> & Hbefore & Hlast).
      exists (inp :: before), inp', after, h2. split_and!; auto.
      cbn [interactive_mode]. rewrite Hstep. exact Hbefore.
    + injection Hrun as <- <-. exists [], inp, rest, h. split_and!; auto.
    + injection Hrun as <- <-. exists [], inp, rest, h. split_and!; auto.
Qed.

(** Extra X11.  A turn breaks the loop exactly when it is an interrupt or
    the line [quit] or [exit], in any letter case and with spaces around.
    A turn ends the loop with an exception exactly when the input has
    ended ([EOFError]) or the line is none of the commands and the
    orchestrator raises, or returns [None] and the agent raises; that
    exception is the one propagated.  Every other turn continues.  The
    first turn that does not continue gives the result of the whole loop,
    whatever inputs follow, and a loop that has stopped has stopped at
    such a turn. *)
Theorem interactive_mode_stops fs h :
  (forall inp,
      (interactive_step fs inp h).1 = Break <->
      inp = KeyboardInterrupt
      \/ exists raw,
           inp = Line raw
           /\ (lower (strip raw) = "quit" \/ lower (strip raw) = "exit"))
  /\ (forall inp e,
         (interactive_step fs inp h).1 = Propagate e <->
         (inp = EndOfInput /\ e = EOFError)
         \/ exists raw,
              inp = Line raw
              /\ ~ is_command (strip raw)
              /\ ((maybe_auto_call_tool h).1 = Raise e
                  \/ ((maybe_auto_call_tool h).1 = Return None
                      /\ exists full_prompt,
                           build_prompt_with_files (strip raw) (attached_files h)
                           = Return full_prompt
                           /\ (agent_run full_prompt
                                         (client (maybe_auto_call_tool h).2)).1
                              = Raise e)))
  /\ (forall before inp after h1,
         interactive_mode fs before h = (Continue, h1) ->
         (interactive_step fs inp h1).1 <> Continue ->
         interactive_mode fs (before ++ inp :: after) h
         = interactive_step fs inp h1)
  /\ (forall inputs st h',
         interactive_mode fs inputs h = (st, h') ->
         st <> Continue ->
         exists before inp after h1,
           inputs = before ++ inp :: after
           /\ interactive_mode fs before h = (Continue, h1)
           /\ interactive_step fs inp h1 = (st, h')).
Proof.
  split_and!.
  - intros [raw| |].
    + destruct (is_command_dec (strip raw)) as [Hcmd | Hfree].
      * rewrite (command_status fs raw h Hcmd). split.
        -- intros Hb. right. exists raw. split; [reflexivity|].
           destruct (truthy_str (strip raw)); [|discriminate]. cbn in Hb.
           destruct (String.eqb_spec (lower (strip raw)) "quit") as [Hq|_];
             [now left|].
           destruct (String.eqb_spec (lower (strip raw)) "exit") as [He|_];
             [now right | discriminate].
        -- intros [[=] | (raw' & [= <-] & Hk)].
           destruct (keyword_tests _ Hk) as [-> ->]. reflexivity.
      * rewrite (free_turn_status fs raw h Hfree). split.
        -- intros Hb. exfalso.
           destruct (maybe_auto_call_tool h) as [[[out|]|e] h1];
             try discriminate.
           destruct (build_prompt_with_files (strip raw) (attached_files h));
             [|discriminate].
           destruct (agent_run a (client h1)).1; discriminate.
        -- intros [[=] | (raw' & [= <-] & Hk)].
           exfalso. apply Hfree. unfold is_command. tauto.
    + split; [now left | reflexivity].
    + split; [discriminate|]. intros [[=] | (raw & [=] & _)].
  - intros [raw| |] e.
    + destruct (is_command_dec (strip raw)) as [Hcmd | Hfree].
      * rewrite (command_status fs raw h Hcmd). split.
        -- destruct (_ && _); discriminate.
        -- intros [[[=] _] | (raw' & [= <-] & Hfree & _)]. contradiction.
      * rewrite (free_turn_status fs raw h Hfree).
        destruct (build_prompt_with_files_returns (strip raw) (attached_files h))
          as [full_prompt Hb].
        rewrite Hb.
        destruct (maybe_auto_call_tool h) as [[[out|]|e'] h1]; cbn [fst snd].
        -- split; [discriminate|].
           intros [[[=] _] | (raw' & _ & _ & [[=] | [[=] _]])].
        -- split.
           ++ intros Hst. right. exists raw. split_and!; auto. right.
              split; [reflexivity|]. exists full_prompt.
              split; [first [reflexivity | exact Hb]|].
              destruct (agent_run full_prompt (client h1)).1; congruence.
           ++ intros [[[=] _] | (raw' & [= <-] & _ & [[=] | [_ (p & Hp & Hrun)]])].
              assert (p = full_prompt) as -> by congruence.
              rewrite Hrun. reflexivity.
        -- split.
           ++ intros [= <-]. right. exists raw. split_and!; auto.
           ++ intros [[[=] _] | (raw' & _ & _ & [[= <-] | [[=] _]])].
              reflexivity.
    + split; [discriminate|]. intros [[[=] _] | (raw & [=] & _)].
    + split.
      * intros [= <-]. now left.
      * intros [[_ ->] | (raw & [=] & _)]. reflexivity.
  - intros before inp after h1 Hbefore Hstop.
    rewrite interactive_mode_app, Hbefore. cbn [interactive_mode].
    destruct (interactive_step fs inp h1) as [[| |e] h2]; try reflexivity.
    now contradiction Hstop.
  - intros inputs st h'. apply interactive_mode_stopped.
Qed.

End Stops.

(* ===================================================================== *)
(** * Part III.  The properties on concrete runs                          *)
(* ===================================================================== *)

Import Scenario.
#[local] Existing Instance Sample.runtime.

Lemma maybe_auto_call_tool_needs_one_tool_witness :
  (maybe_auto_call_tool (heap (connected two_tools) a_json (Some ∅))).1
  = Return None
  /\ (maybe_auto_call_tool (heap (fresh three_servers) a_json (Some ∅))).1
     = Return (Some ok_text).
Proof.
  split.
  - pose proof (maybe_auto_call_tool_needs_one_tool
                  (heap (connected two_tools) a_json (Some ∅))) as (Hcount & _ & _).
    apply (Hcount (flat_map exposed two_tools)
                  (enumerate_tools (heap (connected two_tools) a_json (Some ∅))).2).
    + vm_compute. reflexivity.
    + vm_compute. lia.
  - pose proof (maybe_auto_call_tool_needs_one_tool
                  (heap (fresh three_servers) a_json (Some ∅))) as (_ & _ & Hone).
    destruct (Hone (PyDict [("x", PyInt 1)]) "a.json"
                   (flat_map exposed three_servers)
                   (enumerate_tools (heap (fresh three_servers) a_json (Some ∅))).2)
      as (server_name & session & tool & Htools & Hcall).
    + vm_compute. reflexivity.
    + vm_compute. reflexivity.
    + vm_compute. reflexivity.
    + injection Htools as <- <- <-. rewrite Hcall.
      * vm_compute. reflexivity.
      * vm_compute. reflexivity.
Defined.

Lemma extract_json_payload_first_usable_witness :
  let files := attach "broken.json" ++ attach "notes.txt" ++ a_json in
  ("a.json" ∉ used_set (Some {["b.json"]}))
  /\ (exists before f after,
         files = before ++ f :: after
         /\ "a.json" = filename f
         /\ usable (Some {["b.json"]}) f (PyDict [("x", PyInt 1)])
         /\ Forall (unusable (Some {["b.json"]})) before)
  /\ Forall (unusable (Some {["a.json"]})) files.
Proof.
  intros files.
  split_and!.
  - pose proof (extract_json_payload_first_usable files (Some {["b.json"]}))
      as (_ & _ & _ & Hnot & _).
    apply (Hnot (PyDict [("x", PyInt 1)])). vm_compute. reflexivity.
  - pose proof (extract_json_payload_first_usable files (Some {["b.json"]}))
      as (_ & Hfound & _).
    apply Hfound. vm_compute. reflexivity.
  - pose proof (extract_json_payload_first_usable files (Some {["a.json"]}))
      as (_ & _ & Hnone & _).
    apply Hnone. vm_compute. reflexivity.
Defined.

Lemma payload_matches_schema_shallow_witness :
  payload_matches_schema [("type", PyStr "object")] (PyDict [("x", PyInt 1)]) = true
  /\ payload_matches_schema [("type", PyStr "object")] (PyList [PyInt 1]) = false
  /\ payload_matches_schema [("type", PyStr "array")] (PyDict [("x", PyInt 1)]) = false
  /\ payload_matches_schema [("title", PyStr "anything")] (PyInt 5) = true.
Proof.
  split_and!.
  - apply (payload_matches_schema_shallow
             [("type", PyStr "object")] (PyDict [("x", PyInt 1)])).
    left. split; [reflexivity|]. eexists. reflexivity.
  - apply (payload_matches_schema_shallow [("type", PyStr "object")] PyNone).
    reflexivity.
  - apply (payload_matches_schema_shallow [("type", PyStr "array")] PyNone).
    reflexivity.
  - apply (payload_matches_schema_shallow [("title", PyStr "anything")] (PyInt 5)).
    right. right. split; discriminate.
Defined.

Lemma build_prompt_with_files_renders_witness :
  format_file_for_prompt notes_txt = Return notes_block
  /\ format_file_for_prompt latin1_txt = Return latin1_line
  /\ format_file_for_prompt blob_bin = Return blob_line
  /\ build_prompt_with_files "summarise" [] = Return "summarise"
  /\ build_prompt_with_files "summarise" [notes_txt; blob_bin]
     = Return (notes_block +:+ nl +:+ blob_line +:+ nl +:+ "summarise").
Proof.
  pose proof (build_prompt_with_files_renders "summarise" [])
    as (Hblock & Hline & _ & Hempty).
  split_and!.
  - rewrite (Hblock notes_txt "remember the milk").
    + vm_compute. reflexivity.
    + left. vm_compute. reflexivity.
    + vm_compute. reflexivity.
  - rewrite (Hline latin1_txt).
    + vm_compute. reflexivity.
    + right. exists UnicodeDecodeError. vm_compute. reflexivity.
  - rewrite (Hline blob_bin).
    + vm_compute. reflexivity.
    + left. intros [Ht | Hj]; [vm_compute in Ht | vm_compute in Hj]; discriminate.
  - exact Hempty.
  - pose proof (build_prompt_with_files_renders "summarise" [notes_txt; blob_bin])
      as (_ & _ & (blocks & Hblocks & Hbuild) & _).
    rewrite Hbuild.
    apply Forall2_cons_inv_l in Hblocks as (b1 & rest & H1 & Hrest & ->).
    apply Forall2_cons_inv_l in Hrest as (b2 & rest' & H2 & Hnil & ->).
    apply Forall2_nil_inv_l in Hnil as ->.
    vm_compute in H1. vm_compute in H2.
    injection H1 as <-. injection H2 as <-.
    vm_compute. reflexivity.
Defined.

Lemma format_tool_result_layout_witness :
  format_tool_result ok_result = Return ok_text
  /\ format_tool_result
       {| structuredContent := None;
          content := Some [ {| text := Some "hello" |}; {| text := None |};
                            {| text := Some EmptyString |} ] |}
     = Return "hello"
  /\ format_tool_result {| structuredContent := None; content := None |}
     = Return (str_result {| structuredContent := None; content := None |}).
Proof.
  split_and!.
  - rewrite (format_tool_result_layout ok_result). vm_compute. reflexivity.
  - rewrite format_tool_result_layout. vm_compute. reflexivity.
  - rewrite format_tool_result_layout. vm_compute. reflexivity.
Defined.



Lemma enumerate_tools_isolates_failures_witness :
  (exists h',
      enumerate_tools (heap (fresh three_servers) a_json (Some ∅))
      = (Return [("skills", serving [object_tool], object_tool)], h')
      /\ sessions (client h') = three_servers
      /\ trace h' = [CreateAllSessions; ListTools "idle"; ListTools "down";
                     ListTools "skills"])
  /\ (exists h',
         enumerate_tools (heap (connected three_servers) a_json (Some ∅))
         = (Return [("skills", serving [object_tool], object_tool)], h')
         /\ client h' = connected three_servers
         /\ trace h' = [ListTools "idle"; ListTools "down"; ListTools "skills"])
  /\ (exists h',
         enumerate_tools (heap offline a_json (Some ∅))
         = (Raise (RuntimeError "connection refused"), h')
         /\ client h' = offline
         /\ trace h' = [CreateAllSessions]).
Proof.
  split_and!.
  - pose proof (enumerate_tools_isolates_failures
                  (heap (fresh three_servers) a_json (Some ∅))) as (_ & _ & Hnew & _).
    exact (Hnew eq_refl three_servers eq_refl).
  - pose proof (enumerate_tools_isolates_failures
                  (heap (connected three_servers) a_json (Some ∅)))
      as (_ & Hactive & _).
    refine (Hactive _). discriminate.
  - pose proof (enumerate_tools_isolates_failures (heap offline a_json (Some ∅)))
      as (_ & _ & _ & Hfail).
    exact (Hfail eq_refl (RuntimeError "connection refused") eq_refl).
Defined.

Lemma maybe_auto_call_tool_marks_on_success_witness :
  (exists h',
      maybe_auto_call_tool
        (heap (connected [("skills", crashing [object_tool])]) a_json (Some ∅))
      = (Raise (RuntimeError "tool crashed"), h')
      /\ auto_pass_used h' = Some ∅)
  /\ (exists formatted h',
         maybe_auto_call_tool (heap (connected one_server) a_json (Some ∅))
         = (Return (Some formatted), h')
         /\ format_tool_result ok_result = Return formatted
         /\ auto_pass_used h' = Some ({["a.json"]} ∪ ∅)).
Proof.
  split.
  - pose proof (maybe_auto_call_tool_marks_on_success
                  (heap (connected [("skills", crashing [object_tool])])
                        a_json (Some ∅))) as [_ Hpath].
    destruct (Hpath (PyDict [("x", PyInt 1)]) "a.json" "skills"
                    (crashing [object_tool]) object_tool
                    (enumerate_tools
                       (heap (connected [("skills", crashing [object_tool])])
                             a_json (Some ∅))).2)
      as [Hfail _].
    + vm_compute. reflexivity.
    + vm_compute. reflexivity.
    + vm_compute. reflexivity.
    + destruct (Hfail (RuntimeError "tool crashed") eq_refl) as (h' & Hm & Hu & _).
      exists h'. split; [exact Hm | exact Hu].
  - pose proof (maybe_auto_call_tool_marks_on_success
                  (heap (connected one_server) a_json (Some ∅))) as [_ Hpath].
    destruct (Hpath (PyDict [("x", PyInt 1)]) "a.json" "skills"
                    (serving [object_tool]) object_tool
                    (enumerate_tools
                       (heap (connected one_server) a_json (Some ∅))).2)
      as [_ Hok].
    + vm_compute. reflexivity.
    + vm_compute. reflexivity.
    + vm_compute. reflexivity.
    + apply (Hok ok_result). reflexivity.
Defined.

Lemma maybe_auto_call_tool_abstains_cleanly_witness :
  maybe_auto_call_tool (heap (fresh one_server) (attach "notes.txt") (Some ∅))
  = (Return None, heap (fresh one_server) (attach "notes.txt") (Some ∅))
  /\ (let h := heap (connected [("skills", serving [array_tool])]) a_json
                    (Some {["b.json"]}) in
      attached_files (maybe_auto_call_tool h).2 = attached_files h
      /\ auto_pass_used (maybe_auto_call_tool h).2 = auto_pass_used h).
Proof.
  split.
  - apply (maybe_auto_call_tool_abstains_cleanly
             (heap (fresh one_server) (attach "notes.txt") (Some ∅))).
    vm_compute. reflexivity.
  - intros h.
    apply (maybe_auto_call_tool_abstains_cleanly h).
    vm_compute. reflexivity.
Defined.

Lemma auto_pass_used_is_never_reset_witness :
  let h := heap (fresh one_server) a_json (Some ∅) in
  let h1 := (interactive_step fs (Line "process it") h).2 in
  let h2 := (interactive_step fs (Line " /clear ") h1).2 in
  (exists formatted h', maybe_auto_call_tool h = (Return (Some formatted), h'))
  /\ attached_files h2 = []
  /\ auto_pass_used h2 = auto_pass_used h1
  /\ extract_json_payload a_json
       (auto_pass_used (interactive_mode fs [Line "/attach a.json"] h2).2)
     <> Return (Some (PyDict [("x", PyInt 1)], "a.json")).
Proof.
  intros h h1 h2.
  split_and!.
  - pose proof (auto_pass_used_is_never_reset fs h) as (Hstep & _).
    destruct (Hstep (Line "process it")) as [_ Hcall].
    destruct Hcall as (formatted & h' & Hm & _).
    + vm_compute. discriminate.
    + eauto.
  - apply (auto_pass_used_is_never_reset fs h1). vm_compute. reflexivity.
  - apply (auto_pass_used_is_never_reset fs h1). vm_compute. reflexivity.
  - apply (auto_pass_used_is_never_reset fs h2). vm_compute. reflexivity.
Defined.

(** Claim C2 as stated fails: after an automatic call on [a.json],
    [/clear] leaves [a.json] in the set of used filenames; attached again,
    the file is not extracted and the orchestrator abstains. *)
Lemma clear_keeps_used_filenames_counterexample :
  let h := heap (fresh one_server) a_json (Some ∅) in
  let h1 := (interactive_step fs (Line "process it") h).2 in
  let h2 := (interactive_step fs (Line "/clear") h1).2 in
  let h3 := (interactive_step fs (Line "/attach a.json") h2).2 in
  elements (used_set (auto_pass_used h1)) = ["a.json"]
  /\ attached_files h2 = []
  /\ elements (used_set (auto_pass_used h2)) = ["a.json"]
  /\ used_set (auto_pass_used h2) <> ∅
  /\ attached_files h3 = a_json
  /\ extract_json_payload (attached_files h3) (auto_pass_used h3) = Return None
  /\ maybe_auto_call_tool h3 = (Return None, h3).
Proof.
  intros h h1 h2 h3. split_and!; try (vm_compute; reflexivity).
  intros Hempty.
  assert (Hel : elements (used_set (auto_pass_used h2)) = []).
  { rewrite Hempty. apply elements_empty. }
  vm_compute in Hel. discriminate.
Qed.

#[local] Existing Instance Cases.process.

Lemma load_file_then_format_witness :
  exists attachment,
    load_file fs "notes.txt" = Return attachment
    /\ format_file_for_prompt attachment = Return notes_block.
Proof.
  destruct (load_file_then_format fs "notes.txt"
              (String.list_byte_of_string "remember the milk"))
    as (attachment & Hload & Hblock & _).
  - vm_compute. reflexivity.
  - exists attachment. split; [exact Hload|].
    vm_compute in Hload. injection Hload as <-.
    rewrite (Hblock "remember the milk").
    + vm_compute. reflexivity.
    + left. vm_compute. reflexivity.
    + vm_compute. reflexivity.
Defined.

Lemma load_file_then_extract_witness :
  exists attachment,
    load_file fs "a.json" = Return attachment
    /\ extract_json_payload [attachment] (Some {["b.json"]})
       = Return (Some (PyDict [("x", PyInt 1)], "a.json")).
Proof.
  destruct (load_file_then_extract fs "a.json"
              (String.list_byte_of_string x1_json) (Some {["b.json"]}))
    as (attachment & Hload & Hx).
  - vm_compute. reflexivity.
  - left. vm_compute. reflexivity.
  - intros Hin. vm_compute in Hin. discriminate.
  - exists attachment. split; [exact Hload|].
    rewrite Hx. vm_compute. reflexivity.
Defined.

Lemma extract_json_payload_used_by_membership_witness :
  extract_json_payload a_json (Some {["b.json"]})
  = extract_json_payload a_json None.
Proof.
  apply extract_json_payload_used_by_membership.
  intros f Hf. apply list_elem_of_In in Hf.
  vm_compute in Hf. destruct Hf as [<- | []].
  split; intros Hin; vm_compute in Hin; discriminate.
Defined.

Lemma maybe_auto_call_tool_sends_witness :
  let h := heap (fresh three_servers) a_json (Some ∅) in
  exists requests server_name tool_name payload fn,
    trace (maybe_auto_call_tool h).2
    = requests ++ [CallTool server_name tool_name payload;
                   Print (auto_notice server_name tool_name fn)]
    /\ forallb is_request requests = true.
Proof.
  intros h.
  destruct (maybe_auto_call_tool_sends h (maybe_auto_call_tool h).1
                                       (maybe_auto_call_tool h).2)
    as (requests & calls & Htr & Hreq & _ & _ & Hsome).
  - apply surjective_pairing.
  - destruct (Hsome ok_text) as (server_name & tool_name & payload & fn & _ & ->).
    + vm_compute. reflexivity.
    + exists requests, server_name, tool_name, payload, fn.
      split; [exact Htr | exact Hreq].
Defined.

Lemma maybe_auto_call_tool_consumes_witness :
  let h := heap (connected one_server) a_json (Some ∅) in
  let h' := (maybe_auto_call_tool h).2 in
  maybe_auto_call_tool h' = (Return None, h').
Proof.
  intros h h'.
  destruct (maybe_auto_call_tool_consumes h ok_text h' ∅)
    as (payload & fn & Hx & _ & _ & _ & Hnext).
  - vm_compute. reflexivity.
  - reflexivity.
  - apply Hnext. vm_compute in Hx. injection Hx as _ <-.
    repeat constructor.
Defined.

Lemma interactive_commands_are_local_witness :
  let h := heap (fresh one_server) a_json (Some ∅) in
  let h' := (interactive_step fs (Line "  /help ") h).2 in
  client h' = client h
  /\ auto_pass_used h' = auto_pass_used h
  /\ attached_files h' = attached_files h.
Proof.
  intros h h'.
  destruct (interactive_commands_are_local fs "  /help " h)
    as (Hclient & Hused & _ & Hfiles).
  - do 6 right. vm_compute. reflexivity.
  - split_and!; [exact Hclient | exact Hused |].
    apply Hfiles. right. left. vm_compute. reflexivity.
Defined.

Lemma interactive_attach_witness :
  let h := heap (fresh one_server) a_json (Some ∅) in
  (interactive_step fs (Line "/attach  notes.txt") h).1 = Continue
  /\ attached_files (interactive_step fs (Line "/attach  notes.txt") h).2
     = a_json ++ [notes_txt]
  /\ attached_files (interactive_step fs (Line "/attach nowhere.txt") h).2
     = a_json.
Proof.
  intros h. split_and!.
  - apply (interactive_attach fs "/attach  notes.txt" h). vm_compute. reflexivity.
  - destruct (interactive_attach fs "/attach  notes.txt" h) as (_ & Hok & _).
    + vm_compute. reflexivity.
    + destruct (Hok (String.list_byte_of_string "remember the milk"))
        as (file_info & Hload & Hfiles & _).
      * vm_compute. reflexivity.
      * rewrite Hfiles. vm_compute in Hload. injection Hload as <-.
        vm_compute. reflexivity.
  - destruct (interactive_attach fs "/attach nowhere.txt" h) as (_ & _ & Hbad).
    + vm_compute. reflexivity.
    + apply Hbad. left. vm_compute. reflexivity.
Defined.

Lemma run_agent_fast_path_witness :
  run_agent Cases.keys "process it" "anthropic" (Some a_json)
  = (Return ok_text,
     {| sessions := []; configured := Return one_server |},
     [Core CreateAllSessions; Core (ListTools "skills");
      Core (CallTool "skills" "process" (PyDict [("x", PyInt 1)]));
      Core (Print (auto_notice "skills" "process" "a.json"));
      DisconnectAll]).
Proof.
  destruct (run_agent_fast_path Cases.keys "process it" "anthropic" (Some a_json))
    as (Hfast & _).
  rewrite (Hfast ok_text
             (maybe_auto_call_tool
                (single_shot_heap (getenv Cases.keys "MCP_SERVER_URL" default_url)
                                  a_json)).2).
  - vm_compute. reflexivity.
  - vm_compute. reflexivity.
Defined.

Lemma run_agent_always_disconnects_witness :
  run_agent Cases.crash_env "process it" "anthropic" (Some a_json)
  = (Raise (RuntimeError "tool crashed"),
     {| sessions := [];
        configured := Return [("skills", crashing [object_tool])] |},
     [Core CreateAllSessions; Core (ListTools "skills");
      Core (CallTool "skills" "process" (PyDict [("x", PyInt 1)]));
      DisconnectAll]).
Proof.
  destruct (run_agent_always_disconnects Cases.crash_env "process it" "anthropic"
                                         (Some a_json))
    as (_ & Hfail & _).
  rewrite (Hfail (RuntimeError "tool crashed")
             (maybe_auto_call_tool
                (single_shot_heap
                   (getenv Cases.crash_env "MCP_SERVER_URL" default_url)
                   a_json)).2).
  - vm_compute. reflexivity.
  - vm_compute. reflexivity.
Defined.

Lemma interactive_session_lifecycle_witness :
  (interactive_session ∅ fs "anthropic" None a_json ∅ [Line "quit"]).1.1
  = Propagate (ValueError "api_key is required")
  /\ ~ In DisconnectAll
         (interactive_session ∅ fs "anthropic" None a_json ∅ [Line "quit"]).2
  /\ In DisconnectAll
        (interactive_session Cases.keys fs "anthropic" None a_json ∅
                             [Line "hello"; Line "quit"; Line "ignored"]).2.
Proof.
  split_and!.
  - destruct (interactive_session_lifecycle ∅ fs "anthropic" None a_json ∅
                                            [Line "quit"]) as (Hfail & _).
    rewrite (Hfail (ValueError "api_key is required")); reflexivity.
  - destruct (interactive_session_lifecycle ∅ fs "anthropic" None a_json ∅
                                            [Line "quit"]) as (_ & _ & Hiff).
    intros Hin. apply Hiff in Hin as [[llm Hllm] _]. vm_compute in Hllm.
    discriminate.
  - apply (interactive_session_lifecycle Cases.keys fs "anthropic" None a_json ∅
             [Line "hello"; Line "quit"; Line "ignored"]).
    split.
    + eexists. vm_compute. reflexivity.
    + vm_compute. discriminate.
Defined.

Lemma preload_all_or_nothing_witness :
  preload fs ["a.json"; "missing.json"; "notes.txt"] []
  = (None,
     ["Loaded: a.json (7 bytes)";
      "Error loading missing.json: File not found: missing.json"])
  /\ preload fs ["a.json"; "notes.txt"] [] = (Some (a_json ++ [notes_txt]),
                                              ["Loaded: a.json (7 bytes)";
                                               "Loaded: notes.txt (17 bytes)"]).
Proof.
  split.
  - destruct (preload_all_or_nothing fs ["a.json"; "missing.json"; "notes.txt"] [])
      as (_ & Hfail & _).
    rewrite (Hfail ["a.json"] "missing.json" ["notes.txt"] a_json
                   (FileNotFoundError "File not found: missing.json")).
    + vm_compute. reflexivity.
    + reflexivity.
    + repeat constructor.
    + vm_compute. reflexivity.
  - destruct (preload_all_or_nothing fs ["a.json"; "notes.txt"] [])
      as (Hall & _).
    rewrite (Hall (a_json ++ [notes_txt])).
    + vm_compute. reflexivity.
    + repeat constructor.
Defined.


Lemma interactive_turn_witness :
  let h := heap (connected one_server) a_json (Some ∅) in
  interactive_step fs (Line "/attach") h
  = (Continue, emit (Print ok_text) (maybe_auto_call_tool h).2).
Proof.
  intros h.
  destruct (interactive_turn fs "/attach" h) as (_ & Hauto & _).
  - intros Hcmd. vm_compute in Hcmd.
    destruct Hcmd as [Hc | [Hc | [Hc | [Hc | [Hc | [Hc | Hc]]]]]];
      discriminate.
  - apply Hauto. vm_compute. reflexivity.
Defined.

Lemma interactive_mode_stops_witness :
  let h := heap (fresh one_server) [] (Some ∅) in
  (interactive_mode fs [Line "/help"; Line " QUIT "; Line "hello"] h).1 = Break
  /\ interactive_mode fs [Line "/help"; EndOfInput; Line "hello"] h
     = (Propagate EOFError, (interactive_step fs (Line "/help") h).2)
  /\ (exists before inp after,
         [Line "/help"; KeyboardInterrupt] = before ++ inp :: after
         /\ (interactive_step fs inp (interactive_mode fs before h).2).1 = Break).
Proof.
  intros h.
  pose proof (interactive_mode_stops fs h) as (_ & _ & Hfinal & Hstopped).
  split_and!.
  - assert (E : interactive_mode fs ([Line "/help"] ++ Line " QUIT " :: [Line "hello"]) h
                = interactive_step fs (Line " QUIT ")
                                   (interactive_step fs (Line "/help") h).2).
    { apply Hfinal.
      - vm_compute. reflexivity.
      - vm_compute. discriminate. }
    cbn [app] in E. rewrite E.
    apply (interactive_mode_stops fs (interactive_step fs (Line "/help") h).2).
    right. exists " QUIT ". split; [reflexivity|]. left. vm_compute. reflexivity.
  - assert (E : interactive_mode fs ([Line "/help"] ++ EndOfInput :: [Line "hello"]) h
                = interactive_step fs EndOfInput
                                   (interactive_step fs (Line "/help") h).2).
    { apply Hfinal.
      - vm_compute. reflexivity.
      - vm_compute. discriminate. }
    cbn [app] in E. rewrite E. reflexivity.
  - destruct (Hstopped [Line "/help"; KeyboardInterrupt] Break
                       (interactive_mode fs [Line "/help"; KeyboardInterrupt] h).2)
      as (before & inp & after & h1 & Hsplit & Hbefore & Hlast).
    + vm_compute. reflexivity.
    + discriminate.
    + exists before, inp, after. split; [exact Hsplit|].
      rewrite Hbefore. cbn [snd]. rewrite Hlast. reflexivity.
Defined.
